(** * signac: the JSON back end of the synchronized collection

    A shallow embedding of [signac/core/collection_json.py]: the key
    coercion [_convert_key_to_str], and the methods of [JSONCollection]
    ([__init__], [_load_from_file], [_load], [_write_to_file], [_sync]) as
    state-passing functions over a world made of a disk, a heap of
    collection objects, the process-wide buffer and a trace of system calls.
    The functions of the standard library the methods call ([json.dumps],
    [json.loads], [str.encode], [os.path.split], [os.path.join],
    [os.replace]) are embedded with them.

    Conventions.
    - A Python [str] and a Python [bytes] are both Rocq [string]s: a
      sequence of 8-bit characters.  For [str] this covers the code points
      0..255; code points above are outside this development.
    - A Python [int] is a [Z].  Floats are not modelled: a tree holds
      [None], booleans, integers, strings, lists and dicts.
    - A Python [dict] is an association list in insertion order.
    - A Python exception is a value of [exn]; a call returns a [result].
    - [os.path.realpath], [hashlib] and [uuid.uuid4] are parameters: a
      function on paths, a function on bytes, and the text of the UUID.

    The adapter registry of [signac/contrib/conversion.py]
    ([AdapterMetaType], [Adapter], [make_adapter]) is embedded in the module
    [Conversion].

    The definitions come first; the properties follow, with the theorems
    for the claims C1 to C10 of the specification, and for the further
    properties X1 to X16 of the code, marked as such. *)

From Stdlib Require Import ZArith Ascii String List Bool Lia.
From Stdlib Require Import DecimalString DecimalZ DecimalPos DecimalFacts.
From stdpp Require Import gmap strings list fin_maps.

Import ListNotations.
Local Open Scope Z_scope.
Local Open Scope list_scope.

(** ** Python values *)

(** Keys a dict of the tree can have: [str], [int], [bool], [None]. *)
Inductive key : Type :=
| KStr (s : string)
| KInt (z : Z)
| KBool (b : bool)
| KNone.

Unset Elimination Schemes.
Inductive value : Type :=
| VNone
| VBool (b : bool)
| VInt (z : Z)
| VStr (s : string)
| VList (l : list value)
| VDict (d : list (key * value)).
Set Elimination Schemes.

Abbreviation pydict := (list (key * value)).

(** Induction over trees: the items of a list and the values of a dict
    satisfy the property. *)
Definition value_tree_ind (P : value -> Prop)
    (HNone : P VNone)
    (HBool : forall b, P (VBool b))
    (HInt : forall z, P (VInt z))
    (HStr : forall s, P (VStr s))
    (HList : forall l, Forall P l -> P (VList l))
    (HDict : forall d, Forall (fun kv => P (snd kv)) d -> P (VDict d)) :
  forall v, P v :=
  fix go (v : value) : P v :=
    match v with
    | VNone => HNone
    | VBool b => HBool b
    | VInt z => HInt z
    | VStr s => HStr s
    | VList l =>
        HList l ((fix items (l : list value) : Forall P l :=
                    match l with
                    | [] => @List.Forall_nil _ P
                    | x :: l' => @List.Forall_cons _ P x l' (go x) (items l')
                    end) l)
    | VDict d =>
        HDict d ((fix items (d : pydict) : Forall (fun kv => P (snd kv)) d :=
                    match d with
                    | [] => @List.Forall_nil _ _
                    | kv :: d' => @List.Forall_cons _ (fun kv => P (snd kv)) kv d' (go (snd kv)) (items d')
                    end) d)
    end.

(** [int.__eq__] across [int] and [bool]: [True == 1] and [False == 0]. *)
Definition Z_of_bool (b : bool) : Z := if b then 1 else 0.

(** Key equality as a dict sees it ([==] with equal hashes). *)
Definition key_eqb (a b : key) : bool :=
  match a, b with
  | KStr s, KStr t => String.eqb s t
  | KInt x, KInt y => Z.eqb x y
  | KBool x, KBool y => Bool.eqb x y
  | KInt x, KBool y => Z.eqb x (Z_of_bool y)
  | KBool x, KInt y => Z.eqb (Z_of_bool x) y
  | KNone, KNone => true
  | _, _ => false
  end.

(** [d[k] = v]: an existing key keeps its place (and its key object) and
    takes the new value; a new key goes to the end. *)
Fixpoint dict_set (k : key) (v : value) (d : pydict) : pydict :=
  match d with
  | [] => [(k, v)]
  | (k', v') :: d' =>
      if key_eqb k' k then (k', v) :: d' else (k', v') :: dict_set k v d'
  end.

(** The dict built by inserting the items from left to right, as a dict
    comprehension and [dict(pairs)] do. *)
Definition dict_of_items (items : list (key * value)) : pydict :=
  fold_left (fun d kv => dict_set (fst kv) (snd kv) d) items [].

(** [str(int)]. *)
Definition str_of_int (z : Z) : string := NilZero.string_of_int (Z.to_int z).

(** [type(key).__name__] and [str(key)]. *)
Definition type_name (k : key) : string :=
  match k with
  | KStr _ => "str"
  | KInt _ => "int"
  | KBool _ => "bool"
  | KNone => "NoneType"
  end.

Definition str_of_key (k : key) : string :=
  match k with
  | KStr s => s
  | KInt z => str_of_int z
  | KBool true => "True"
  | KBool false => "False"
  | KNone => "None"
  end.

(** ** Key coercion *)

(** A [DeprecationWarning] handed to [warnings.warn]; the message is
    "Use of <type> as key is deprecated and will be removed in version 2.0". *)
Inductive warning : Type :=
| DeprecationWarning (msg : string).

Definition key_deprecated (k : key) : warning :=
  DeprecationWarning
    ("Use of " +:+ type_name k +:+
     " as key is deprecated and will be removed in version 2.0").

Definition isinstance_str (k : key) : bool :=
  match k with KStr _ => true | _ => false end.

(** The local function [_str_key]: the key as a string, and the warnings
    it emitted. *)
Definition _str_key (k : key) : key * list warning :=
  if negb (isinstance_str k)
  then (KStr (str_of_key k), [key_deprecated k])
  else (k, []).

(** [_convert_key_to_str(data)]: the converted tree and the warnings
    emitted on the way, in order.  A dict comprehension evaluates, for each
    item, the key expression and then the value expression (Python 3.8 and
    later), and inserts. *)
Fixpoint _convert_key_to_str (data : value) : value * list warning :=
  match data with
  | VDict d =>
      let items :=
        map (fun kv =>
               let kw := _str_key (fst kv) in
               let vw := _convert_key_to_str (snd kv) in
               ((fst kw, fst vw), snd kw ++ snd vw)) d in
      (VDict (dict_of_items (map fst items)), concat (map snd items))
  | VList l =>
      let items := map _convert_key_to_str l in
      (VList (map fst items), concat (map snd items))
  | _ => (data, [])
  end.

(** ** [json.dumps]

    The encoder of the standard library with its defaults, as [_sync] calls
    it: [ensure_ascii=True], item separator [", "], key separator [": "]. *)

Definition ord (c : ascii) : N := N_of_ascii c.

Definition quote : ascii := "034"%char.
Definition backslash : ascii := "\"%char.

(** A digit of ['{0:04x}'.format(n)]. *)
Definition hexdigit (n : N) : ascii :=
  if (n <? 10)%N then ascii_of_N (48 + n) else ascii_of_N (87 + n).

(** [ESCAPE_DCT], and [\uXXXX] for every other character outside [' '..'~']. *)
Definition escape_char (c : ascii) : string :=
  if Ascii.eqb c quote then String backslash (String quote EmptyString)
  else if Ascii.eqb c backslash then "\\"
  else if Ascii.eqb c "008" then "\b"
  else if Ascii.eqb c "012" then "\f"
  else if Ascii.eqb c "010" then "\n"
  else if Ascii.eqb c "013" then "\r"
  else if Ascii.eqb c "009" then "\t"
  else if ((32 <=? ord c) && (ord c <=? 126))%N then String c EmptyString
  else "\u00" +:+ String (hexdigit (ord c / 16)) (String (hexdigit (ord c mod 16)) EmptyString).

Fixpoint escape_body (s : string) : string :=
  match s with
  | EmptyString => EmptyString
  | String c s' => escape_char c +:+ escape_body s'
  end.

(** [py_encode_basestring_ascii]. *)
Definition encode_basestring_ascii (s : string) : string :=
  String quote (escape_body s +:+ String quote EmptyString).

(** The text of a dict key: a [str] as it is, [True] as [true], [None] as
    [null], an [int] in decimal. *)
Definition json_key (k : key) : string :=
  match k with
  | KStr s => s
  | KInt z => str_of_int z
  | KBool true => "true"
  | KBool false => "false"
  | KNone => "null"
  end.

Fixpoint json_dumps (o : value) : string :=
  match o with
  | VNone => "null"
  | VBool true => "true"
  | VBool false => "false"
  | VInt z => str_of_int z
  | VStr s => encode_basestring_ascii s
  | VList [] => "[]"
  | VList (x :: l) =>
      "[" +:+ json_dumps x +:+
      (fix rest (l : list value) : string :=
         match l with
         | [] => "]"
         | y :: l' => ", " +:+ json_dumps y +:+ rest l'
         end) l
  | VDict [] => "{}"
  | VDict (kv :: d) =>
      "{" +:+ encode_basestring_ascii (json_key (fst kv)) +:+ ": " +:+
      json_dumps (snd kv) +:+
      (fix rest (d : pydict) : string :=
         match d with
         | [] => "}"
         | kv :: d' =>
             ", " +:+ encode_basestring_ascii (json_key (fst kv)) +:+ ": " +:+
             json_dumps (snd kv) +:+ rest d'
         end) d
  end.

(** ** [json.loads]

    The decoder of the standard library ([json.decoder], [json.scanner]) on
    a text.  [None] stands for a [JSONDecodeError], and also for a document
    outside this development: a number with a fraction or an exponent, [NaN],
    [Infinity], or a [\uXXXX] escape above code point 255. *)

Definition is_ws (c : ascii) : bool :=
  Ascii.eqb c " " || Ascii.eqb c "009" || Ascii.eqb c "010" || Ascii.eqb c "013".

(** [WHITESPACE.match(s, end).end()]. *)
Fixpoint skip_ws (s : string) : string :=
  match s with
  | EmptyString => EmptyString
  | String c r => if is_ws c then skip_ws r else s
  end.

(** [s[len(p):]] when [s] starts with [p]. *)
Fixpoint strip_prefix (p s : string) : option string :=
  match p, s with
  | EmptyString, _ => Some s
  | String a p', String b s' => if Ascii.eqb a b then strip_prefix p' s' else None
  | String _ _, EmptyString => None
  end.

(** The value of a hexadecimal digit, in either case. *)
Definition hexval (c : ascii) : option N :=
  let n := ord c in
  if ((48 <=? n) && (n <=? 57))%N then Some (n - 48)%N
  else if ((97 <=? n) && (n <=? 102))%N then Some (n - 87)%N
  else if ((65 <=? n) && (n <=? 70))%N then Some (n - 55)%N
  else None.

Definition hex4 (a b c d : ascii) : option N :=
  match hexval a, hexval b, hexval c, hexval d with
  | Some x, Some y, Some z, Some w => Some (((x * 16 + y) * 16 + z) * 16 + w)%N
  | _, _, _, _ => None
  end.

(** [BACKSLASH]: the one-character escapes. *)
Definition unescape (e : ascii) : option ascii :=
  if Ascii.eqb e quote then Some quote
  else if Ascii.eqb e backslash then Some backslash
  else if Ascii.eqb e "/" then Some "/"%char
  else if Ascii.eqb e "b" then Some "008"%char
  else if Ascii.eqb e "f" then Some "012"%char
  else if Ascii.eqb e "n" then Some "010"%char
  else if Ascii.eqb e "r" then Some "013"%char
  else if Ascii.eqb e "t" then Some "009"%char
  else None.

Definition cons_char (c : ascii) (r : option (string * string)) : option (string * string) :=
  match r with
  | Some (s, rest) => Some (String c s, rest)
  | None => None
  end.

(** [py_scanstring(s, end, strict=True)], from just after the opening
    quote: the string and the text after its closing quote. *)
Fixpoint scanstring (s : string) : option (string * string) :=
  match s with
  | EmptyString => None
  | String c r =>
      if Ascii.eqb c quote then Some (EmptyString, r)
      else if Ascii.eqb c backslash then
        match r with
        | EmptyString => None
        | String e r1 =>
            if Ascii.eqb e "u" then
              match r1 with
              | String h1 (String h2 (String h3 (String h4 r2))) =>
                  match hex4 h1 h2 h3 h4 with
                  | Some n =>
                      if (n <? 256)%N then cons_char (ascii_of_N n) (scanstring r2)
                      else None
                  | None => None
                  end
              | _ => None
              end
            else
              match unescape e with
              | Some ch => cons_char ch (scanstring r1)
              | None => None
              end
        end
      else if (ord c <? 32)%N then None
      else cons_char c (scanstring r)
  end.

(** A decimal digit as a constructor of [Decimal.uint]. *)
Definition digit_of (c : ascii) : option (Decimal.uint -> Decimal.uint) :=
  if Ascii.eqb c "0" then Some Decimal.D0
  else if Ascii.eqb c "1" then Some Decimal.D1
  else if Ascii.eqb c "2" then Some Decimal.D2
  else if Ascii.eqb c "3" then Some Decimal.D3
  else if Ascii.eqb c "4" then Some Decimal.D4
  else if Ascii.eqb c "5" then Some Decimal.D5
  else if Ascii.eqb c "6" then Some Decimal.D6
  else if Ascii.eqb c "7" then Some Decimal.D7
  else if Ascii.eqb c "8" then Some Decimal.D8
  else if Ascii.eqb c "9" then Some Decimal.D9
  else None.

Definition is_digit (c : ascii) : bool :=
  match digit_of c with Some _ => true | None => false end.

Definition starts_with_digit (s : string) : bool :=
  match s with
  | String c _ => is_digit c
  | EmptyString => false
  end.

(** [\d*]: the longest run of digits. *)
Fixpoint scan_digits (s : string) : Decimal.uint * string :=
  match s with
  | EmptyString => (Decimal.Nil, s)
  | String c r =>
      match digit_of c with
      | Some d => let ur := scan_digits r in (d (fst ur), snd ur)
      | None => (Decimal.Nil, s)
      end
  end.

(** [0|[1-9]\d*]. *)
Definition scan_intpart (s : string) : option (Decimal.uint * string) :=
  match s with
  | EmptyString => None
  | String c r =>
      if Ascii.eqb c "0" then Some (Decimal.D0 Decimal.Nil, r)
      else match digit_of c with
           | Some d => let ur := scan_digits r in Some (d (fst ur), snd ur)
           | None => None
           end
  end.

(** Whether [(\.\d+)?([eE][-+]?\d+)?] matches a non-empty text here: the
    number is then a float. *)
Definition float_tail (r : string) : bool :=
  match r with
  | EmptyString => false
  | String c r' =>
      if Ascii.eqb c "." then starts_with_digit r'
      else if Ascii.eqb c "e" || Ascii.eqb c "E" then
        match r' with
        | EmptyString => false
        | String g r'' =>
            if Ascii.eqb g "+" || Ascii.eqb g "-" then starts_with_digit r''
            else is_digit g
        end
      else false
  end.

(** [NUMBER_RE.match] and [int(integer)]. *)
Definition match_number (s : string) : option (value * string) :=
  let sr := match s with
            | String c r => if Ascii.eqb c "-" then (true, r) else (false, s)
            | EmptyString => (false, s)
            end in
  match scan_intpart (snd sr) with
  | None => None
  | Some (u, r) =>
      if float_tail r then None
      else Some (VInt (Z.of_int (if fst sr then Decimal.Neg u else Decimal.Pos u)), r)
  end.

Section Scanner.
(** [scan_once], as the array and object scanners receive it. *)
Variable scan : string -> option (value * string).

(** The loop of [JSONArray], at the first character of an item. *)
Fixpoint array_items (fuel : nat) (s : string) : option (list value * string) :=
  match fuel with
  | O => None
  | S n =>
      match scan s with
      | None => None
      | Some (v, r) =>
          match skip_ws r with
          | String c r' =>
              if Ascii.eqb c "]" then Some ([v], r')
              else if Ascii.eqb c "," then
                match array_items n (skip_ws r') with
                | Some (vs, r'') => Some (v :: vs, r'')
                | None => None
                end
              else None
          | EmptyString => None
          end
      end
  end.

(** [JSONArray], from just after the bracket. *)
Definition JSONArray (fuel : nat) (s : string) : option (value * string) :=
  match skip_ws s with
  | EmptyString => None
  | String c r =>
      if Ascii.eqb c "]" then Some (VList [], r)
      else match array_items fuel (String c r) with
           | Some (vs, r') => Some (VList vs, r')
           | None => None
           end
  end.

(** The loop of [JSONObject], from just after the opening quote of a key. *)
Fixpoint object_pairs (fuel : nat) (s : string) : option (list (key * value) * string) :=
  match fuel with
  | O => None
  | S n =>
      match scanstring s with
      | None => None
      | Some (k, r) =>
          match skip_ws r with
          | EmptyString => None
          | String c r1 =>
              if negb (Ascii.eqb c ":") then None
              else
                match scan (skip_ws r1) with
                | None => None
                | Some (v, r2) =>
                    match skip_ws r2 with
                    | EmptyString => None
                    | String c2 r3 =>
                        if Ascii.eqb c2 "}" then Some ([(KStr k, v)], r3)
                        else if Ascii.eqb c2 "," then
                          match skip_ws r3 with
                          | EmptyString => None
                          | String c3 r4 =>
                              if negb (Ascii.eqb c3 quote) then None
                              else
                                match object_pairs n r4 with
                                | Some (kvs, r5) => Some ((KStr k, v) :: kvs, r5)
                                | None => None
                                end
                          end
                        else None
                    end
                end
          end
      end
  end.

(** [JSONObject], from just after the brace; the pairs become a dict by
    [dict(pairs)]. *)
Definition JSONObject (fuel : nat) (s : string) : option (value * string) :=
  match skip_ws s with
  | EmptyString => None
  | String c r =>
      if Ascii.eqb c "}" then Some (VDict [], r)
      else if Ascii.eqb c quote then
        match object_pairs fuel r with
        | Some (kvs, r') => Some (VDict (dict_of_items kvs), r')
        | None => None
        end
      else None
  end.
End Scanner.

(** [scan_once]: [fuel] bounds the nesting depth and the number of items of
    a container. *)
Fixpoint scan_once (fuel : nat) (s : string) : option (value * string) :=
  match fuel with
  | O => None
  | S n =>
      match s with
      | EmptyString => None
      | String c r =>
          if Ascii.eqb c quote then
            match scanstring r with
            | Some (str, r') => Some (VStr str, r')
            | None => None
            end
          else if Ascii.eqb c "{" then JSONObject (scan_once n) n r
          else if Ascii.eqb c "[" then JSONArray (scan_once n) n r
          else
            match strip_prefix "null" s with
            | Some r' => Some (VNone, r')
            | None =>
                match strip_prefix "true" s with
                | Some r' => Some (VBool true, r')
                | None =>
                    match strip_prefix "false" s with
                    | Some r' => Some (VBool false, r')
                    | None => match_number s
                    end
                end
            end
      end
  end.

(** [JSONDecoder.decode]: leading blanks, one value, trailing blanks, and
    nothing more.  No container of a text is deeper, or has more items,
    than the text is long. *)
Definition decode (s : string) : option value :=
  match scan_once (S (String.length s)) (skip_ws s) with
  | Some (v, r) =>
      match skip_ws r with
      | EmptyString => Some v
      | String _ _ => None
      end
  | None => None
  end.

(** ** [bytes] and text *)

Abbreviation path := string.
Abbreviation bytes := string.

(** [str.encode()]: UTF-8, for the code points a [str] has here. *)
Fixpoint str_encode (s : string) : bytes :=
  match s with
  | EmptyString => EmptyString
  | String c r =>
      if (ord c <? 128)%N then String c (str_encode r)
      else String (ascii_of_N (192 + ord c / 64))
             (String (ascii_of_N (128 + ord c mod 64)) (str_encode r))
  end.

(** [bytes.decode('utf-8')]; [None] for a [UnicodeDecodeError] and for a
    code point above 255. *)
Fixpoint utf8_decode (b : bytes) : option string :=
  match b with
  | EmptyString => Some EmptyString
  | String c r =>
      if (ord c <? 128)%N then
        match utf8_decode r with
        | Some s => Some (String c s)
        | None => None
        end
      else if ((ord c =? 194) || (ord c =? 195))%N then
        match r with
        | String c2 r' =>
            if ((128 <=? ord c2) && (ord c2 <? 192))%N then
              match utf8_decode r' with
              | Some s => Some (String (ascii_of_N ((ord c - 192) * 64 + (ord c2 - 128))) s)
              | None => None
              end
            else None
        | EmptyString => None
        end
      else None
  end.

Inductive encoding : Type := UTF8 | UTF8_SIG | UTF16_32.

Definition byte_is (n : N) (c : ascii) : bool := (ord c =? n)%N.

(** [json.detect_encoding]: byte-order marks first, then the place of the
    NUL bytes among the first four. *)
Definition detect_encoding (b : bytes) : encoding :=
  match b with
  | String b0 (String b1 r) =>
      if (byte_is 254 b0 && byte_is 255 b1) || (byte_is 255 b0 && byte_is 254 b1)
      then UTF16_32
      else
        match r with
        | EmptyString =>
            if byte_is 0 b0 || byte_is 0 b1 then UTF16_32 else UTF8
        | String b2 r' =>
            if byte_is 0 b0 && byte_is 0 b1 && byte_is 254 b2
               && match r' with String b3 _ => byte_is 255 b3 | EmptyString => false end
            then UTF16_32
            else if byte_is 239 b0 && byte_is 187 b1 && byte_is 191 b2 then UTF8_SIG
            else
              match r' with
              | String _ _ => if byte_is 0 b0 || byte_is 0 b1 then UTF16_32 else UTF8
              | EmptyString => UTF8
              end
        end
  | _ => UTF8
  end.

(** ** Exceptions and results *)

Definition errno := Z.
Definition ENOENT : errno := 2.
Definition EACCES : errno := 13.

Inductive exn : Type :=
| IOError (e : errno)      (* [OSError] with its [errno] *)
| TypeError
| ValueError               (* [JSONDecodeError], [UnicodeDecodeError] *)
| FormatError.             (* raised by a validator *)

Inductive result (A : Type) : Type :=
| Ok (a : A)
| Raise (e : exn).
Arguments Ok {A} a.
Arguments Raise {A} e.

(** A [bytes] object or [None]. *)
Abbreviation pyblob := (option bytes).

(** [json.loads(blob)]: a [TypeError] for [None]; otherwise the bytes are
    decoded with the detected encoding and the text is parsed.  UTF-16 and
    UTF-32 documents are outside this development and give [ValueError]. *)
Definition json_loads (blob : pyblob) : result value :=
  match blob with
  | None => Raise TypeError
  | Some b =>
      let text :=
        match detect_encoding b with
        | UTF8 => utf8_decode b
        | UTF8_SIG => utf8_decode (String.substring 3 (String.length b - 3) b)
        | UTF16_32 => None
        end in
      match text with
      | Some s => match decode s with Some v => Ok v | None => Raise ValueError end
      | None => Raise ValueError
      end
  end.

(** ** [os.path] (posixpath) *)

(** [(p[:i], p[i:])] for [i = p.rfind('/') + 1]. *)
Fixpoint rpartition_slash (p : path) : string * string :=
  match p with
  | EmptyString => (EmptyString, EmptyString)
  | String c r =>
      let ht := rpartition_slash r in
      match fst ht with
      | EmptyString =>
          if Ascii.eqb c "/" then (String c EmptyString, snd ht)
          else (EmptyString, String c (snd ht))
      | String _ _ => (String c (fst ht), snd ht)
      end
  end.

(** [s.rstrip('/')]. *)
Fixpoint rstrip_slash (s : string) : string :=
  match s with
  | EmptyString => EmptyString
  | String c r =>
      match rstrip_slash r with
      | EmptyString => if Ascii.eqb c "/" then EmptyString else String c EmptyString
      | String a b => String c (String a b)
      end
  end.

(** [os.path.split]: a head that is not all slashes loses its trailing
    slashes. *)
Definition os_path_split (p : path) : path * string :=
  let ht := rpartition_slash p in
  (match rstrip_slash (fst ht) with
   | EmptyString => fst ht
   | String a b => String a b
   end, snd ht).

Fixpoint endswith_slash (s : string) : bool :=
  match s with
  | EmptyString => false
  | String c EmptyString => Ascii.eqb c "/"
  | String _ r => endswith_slash r
  end.

Definition startswith_slash (s : string) : bool :=
  match s with
  | String c _ => Ascii.eqb c "/"
  | EmptyString => false
  end.

(** [os.path.join(a, b)]. *)
Definition os_path_join (a b : path) : path :=
  if startswith_slash b then b
  else if match a with EmptyString => true | _ => endswith_slash a end then a +:+ b
  else a +:+ "/" +:+ b.

(** ** The world: disk, objects, buffer *)

(** What a path of the disk holds: a regular file, or something [open]
    fails on with the given [errno] (a directory, a file without
    permission).  A path the disk does not have fails with [ENOENT]. *)
Inductive node : Type :=
| File (content : bytes)
| Fault (e : errno).

Inductive syscall : Type :=
| OpenRead (p : path)
| OpenWrite (p : path)
| Write (p : path) (data : bytes)
| Replace (src dst : path).

Abbreviation loc := nat.

(** The attributes of a [JSONCollection] object.  [_data] is the in-memory
    tree in its plain form; [_buffered] is the per-instance counter of
    [_sync] and [_load]. *)
Record instance : Type := Instance {
  _filename : option path;
  _write_concern : bool;
  _name : option path;
  _data : value;
  _buffered : Z;
  _supports_buffering : bool
}.

(** The process: the disk, the heap of collection objects, the process-wide
    buffer ([_cache], with the fingerprints next to it), the counter of
    open buffered scopes, the registered validators, the warnings emitted,
    and the system calls made so far, each with the disk it left. *)
Record world : Type := World {
  disk : gmap path node;
  objects : gmap loc instance;
  _cache : gmap (option path) pyblob;
  _hashes : gmap (option path) bytes;
  _buffered_scopes : Z;
  _validators : list (value -> bool);
  warned : list warning;
  syscalls : list (syscall * gmap path node)
}.

Definition set_disk (f : gmap path node -> gmap path node) (w : world) : world :=
  World (f (disk w)) (objects w) (_cache w) (_hashes w) (_buffered_scopes w)
        (_validators w) (warned w) (syscalls w).
Definition set_objects (f : gmap loc instance -> gmap loc instance) (w : world) : world :=
  World (disk w) (f (objects w)) (_cache w) (_hashes w) (_buffered_scopes w)
        (_validators w) (warned w) (syscalls w).
Definition set_cache (f : gmap (option path) pyblob -> gmap (option path) pyblob)
    (w : world) : world :=
  World (disk w) (objects w) (f (_cache w)) (_hashes w) (_buffered_scopes w)
        (_validators w) (warned w) (syscalls w).
Definition set_hashes (f : gmap (option path) bytes -> gmap (option path) bytes)
    (w : world) : world :=
  World (disk w) (objects w) (_cache w) (f (_hashes w)) (_buffered_scopes w)
        (_validators w) (warned w) (syscalls w).
Definition set_validators (f : list (value -> bool) -> list (value -> bool))
    (w : world) : world :=
  World (disk w) (objects w) (_cache w) (_hashes w) (_buffered_scopes w)
        (f (_validators w)) (warned w) (syscalls w).
Definition set_warned (f : list warning -> list warning) (w : world) : world :=
  World (disk w) (objects w) (_cache w) (_hashes w) (_buffered_scopes w)
        (_validators w) (f (warned w)) (syscalls w).
Definition set_syscalls
    (f : list (syscall * gmap path node) -> list (syscall * gmap path node))
    (w : world) : world :=
  World (disk w) (objects w) (_cache w) (_hashes w) (_buffered_scopes w)
        (_validators w) (warned w) (f (syscalls w)).

(** A Python call: from the world before to a result and the world after.
    What a call did before it raised stays done. *)
Definition Py (A : Type) : Type := world -> result A * world.

#[export] Instance Py_ret : MRet Py := fun A a w => (Ok a, w).
#[export] Instance Py_bind : MBind Py := fun A B f m w =>
  match m w with
  | (Ok a, w') => f a w'
  | (Raise e, w') => (Raise e, w')
  end.

Definition raise {A : Type} (e : exn) : Py A := fun w => (Raise e, w).
Definition gets {A : Type} (f : world -> A) : Py A := fun w => (Ok (f w), w).
Definition modify (f : world -> world) : Py unit := fun w => (Ok tt, f w).
Definition lift {A : Type} (r : result A) : Py A := fun w => (r, w).

(** [try: m except: h]: [h] decides itself which exceptions it lets through. *)
Definition try_except {A : Type} (m : Py A) (h : exn -> Py A) : Py A := fun w =>
  match m w with
  | (Ok a, w') => (Ok a, w')
  | (Raise e, w') => h e w'
  end.

(** A system call: its effect on the disk, recorded in [syscalls]. *)
Definition sys {A : Type} (c : syscall)
    (step : gmap path node -> result A * gmap path node) : Py A := fun w =>
  let rd := step (disk w) in
  (fst rd, set_syscalls (fun t => t ++ [(c, snd rd)]) (set_disk (fun _ => snd rd) w)).

(** [with open(p, 'rb') as file: file.read()]. *)
Definition open_read (p : path) : Py bytes :=
  sys (OpenRead p) (fun d =>
    match d !! p with
    | Some (File b) => (Ok b, d)
    | Some (Fault e) => (Raise (IOError e), d)
    | None => (Raise (IOError ENOENT), d)
    end).

(** [open(p, 'wb')]: the file is created or truncated. *)
Definition open_write (p : path) : Py unit :=
  sys (OpenWrite p) (fun d =>
    match d !! p with
    | Some (Fault e) => (Raise (IOError e), d)
    | _ => (Ok tt, <[p := File EmptyString]> d)
    end).

(** [file.write(blob)] and the close that ends the [with] block.  The
    write of an open file always succeeds here: a full disk is outside this
    development. *)
Definition file_write (p : path) (blob : bytes) : Py unit :=
  sys (Write p blob) (fun d => (Ok tt, <[p := File blob]> d)).

(** [os.replace(src, dst)]: one step; [src] is gone afterwards.  It fails
    here only when [src] is missing: the failures that depend on [dst] (a
    directory in its place, no permission) are outside this development. *)
Definition os_replace (src dst : path) : Py unit :=
  sys (Replace src dst) (fun d =>
    match d !! src with
    | Some n => (Ok tt, <[dst := n]> (delete src d))
    | None => (Raise (IOError ENOENT), d)
    end).

(** [self.<attribute>]: the object at [self].  A method runs on an object
    of the heap; for an address without one the model answers with a
    [TypeError]. *)
Definition getattr (self : loc) : Py instance := fun w =>
  match objects w !! self with
  | Some o => (Ok o, w)
  | None => (Raise TypeError, w)
  end.

(** [warnings.warn] for each warning of a list. *)
Definition warn_all (ws : list warning) : Py unit :=
  modify (set_warned (fun l => l ++ ws)).

(** ** The collaborators of [collection_json.py] *)

Section Collaborators.
(** [hashlib]: the digest that fingerprints the bytes of a buffer entry. *)
Variable fingerprint : bytes -> bytes.

(** Modelled from the spec: [_in_buffered_mode] of [synced_collection.py],
    which is not part of the sources at hand.  "Buffering is active while
    the counter is positive": a process-wide counter of open buffered
    scopes. *)
Definition _in_buffered_mode : Py bool :=
  gets (fun w => 0 <? _buffered_scopes w).

(** Modelled from the spec: [FileBuffer._store_to_buffer] of [buffers.py],
    which is not part of the sources at hand.  It "installs/overwrites the
    cached bytes for path" and "optionally records a fingerprint of the
    bytes"; a digest of [None] is a [TypeError]. *)
Definition _store_to_buffer (filename : option path) (blob : pyblob)
    (store_hash : bool) : Py unit :=
  modify (set_cache (fun c => <[filename := blob]> c)) ;;
  if store_hash then
    match blob with
    | Some b => modify (set_hashes (fun h => <[filename := fingerprint b]> h))
    | None => raise TypeError
    end
  else mret tt.

(** Modelled from the spec: [SyncedCollection.to_base], which is not part
    of the sources at hand: the "plain nested structure of
    primitives/containers" of the in-memory tree. *)
Definition to_base (self : loc) : Py value :=
  o ← getattr self; mret (_data o).

(** Modelled from the spec: [SyncedCollection.add_validator], which is not
    part of the sources at hand; validators run "in registration order". *)
Definition add_validator (v : value -> bool) : Py unit :=
  modify (set_validators (fun vs => vs ++ [v])).
End Collaborators.

(** ** [class JSONCollection] *)

Module JSONCollection.
Section Methods.
(** [os.path.realpath]: the canonical path of a path. *)
Variable realpath : path -> path.
Variable fingerprint : bytes -> bytes.

(** [__init__(self, filename=None, write_concern=False, **kwargs)].  The
    part of [super().__init__] is modelled from the spec
    ([SyncedCollection.__init__] is not part of the sources at hand): it
    keeps the name and the data and starts with no buffered scope open. *)
Definition __init__ (self : loc) (filename : option path)
    (write_concern : bool) (data : value) : Py unit :=
  modify (set_objects (fun h =>
    <[self := {| _filename := match filename with
                              | None => None
                              | Some f => Some (realpath f)
                              end;
                 _write_concern := write_concern;
                 _name := filename;
                 _data := data;
                 _buffered := 0;
                 _supports_buffering := true |}]> h)).

(** [_load_from_file(self)].  [open(None, 'rb')] is a [TypeError], which
    the handler does not catch.  The handler returns the bytes of
    [json.dumps(None)] for [ENOENT]; for any other [IOError] it comes to
    its end, and the function returns [None]. *)
Definition _load_from_file (self : loc) : Py pyblob :=
  o ← getattr self;
  try_except
    (match _filename o with
     | None => raise TypeError
     | Some f => b ← open_read f; mret (Some b)
     end)
    (fun error =>
       match error with
       | IOError e =>
           if e =? ENOENT then mret (Some (str_encode (json_dumps VNone)))
           else mret None
       | _ => raise error
       end).

(** [_load(self)]. *)
Definition _load (self : loc) : Py value :=
  g ← _in_buffered_mode;
  o ← getattr self;
  blob ← (if g || negb (_buffered o =? 0) then
            cache ← gets _cache;
            match cache !! _filename o with
            | Some blob => mret blob
            | None =>
                blob ← _load_from_file self;
                _store_to_buffer fingerprint (_filename o) blob true ;;
                mret blob
            end
          else _load_from_file self);
  lift (json_loads blob).

(** [_write_to_file(filename, blob, write_concern=True)]; [tok] is the
    text of [uuid.uuid4()].  [os.path.split(None)] and [open(None, 'wb')]
    are [TypeError]s. *)
Definition _write_to_file (tok : string) (filename : option path)
    (blob : bytes) (write_concern : bool) : Py unit :=
  if write_concern then
    match filename with
    | None => raise TypeError
    | Some f =>
        let dirname := fst (os_path_split f) in
        let fn := snd (os_path_split f) in
        let fn_tmp := os_path_join dirname ("._" +:+ tok +:+ "_" +:+ fn) in
        open_write fn_tmp ;;
        file_write fn_tmp blob ;;
        os_replace fn_tmp f
    end
  else
    match filename with
    | None => raise TypeError
    | Some f =>
        open_write f ;;
        file_write f blob
    end.

(** [_sync(self)]. *)
Definition _sync (tok : string) (self : loc) : Py unit :=
  data ← to_base self;
  let converted := _convert_key_to_str data in
  warn_all (snd converted) ;;
  let blob := str_encode (json_dumps (fst converted)) in
  g ← _in_buffered_mode;
  o ← getattr self;
  if g || (0 <? _buffered o) then
    _store_to_buffer fingerprint (_filename o) (Some blob) false
  else
    _write_to_file tok (_filename o) blob (_write_concern o).

(** Modelled from the spec: [SyncedCollection.sync] with its validator
    chain, which is not part of the sources at hand.  "Every registered
    validator runs against the [to_base()] output in registration order;
    the first validator that signals a violation aborts the sync with a
    format error"; then the back end writes. *)
Fixpoint run_validators (vs : list (value -> bool)) (data : value) : Py unit :=
  match vs with
  | [] => mret tt
  | v :: vs' => if v data then run_validators vs' data else raise FormatError
  end.

Definition sync (tok : string) (self : loc) : Py unit :=
  data ← to_base self;
  vs ← gets _validators;
  run_validators vs data ;;
  _sync tok self.

(** Modelled from the spec: a mutation of a view type, which is not part
    of the sources at hand.  It "updates the in-memory tree, then invokes
    sync". *)
Definition mutate (tok : string) (self : loc) (update : value -> value) : Py unit :=
  modify (set_objects (fun h =>
    alter (fun o => {| _filename := _filename o;
                       _write_concern := _write_concern o;
                       _name := _name o;
                       _data := update (_data o);
                       _buffered := _buffered o;
                       _supports_buffering := _supports_buffering o |}) self h)) ;;
  sync tok self.
End Methods.
End JSONCollection.

(** ** Key coercion: what the spec says, and what a tree needs for it *)

(** Every key of every dict of the tree is a [str]. *)
Fixpoint all_keys_str (v : value) : bool :=
  match v with
  | VList l => forallb all_keys_str l
  | VDict d => forallb (fun kv => isinstance_str (fst kv) && all_keys_str (snd kv)) d
  | _ => true
  end.

(** The tree of the spec's words: the same tree, "every non-string mapping
    key" replaced by its string, item by item. *)
Fixpoint keys_replaced (v : value) : value :=
  match v with
  | VList l => VList (map keys_replaced l)
  | VDict d =>
      VDict (map (fun kv => (KStr (str_of_key (fst kv)), keys_replaced (snd kv))) d)
  | _ => v
  end.

(** One deprecation warning for each key that is not a [str], in the order
    of a walk through the tree. *)
Fixpoint deprecations (v : value) : list warning :=
  match v with
  | VList l => concat (map deprecations l)
  | VDict d =>
      concat (map (fun kv =>
                     (if isinstance_str (fst kv) then [] else [key_deprecated (fst kv)])
                     ++ deprecations (snd kv)) d)
  | _ => []
  end.

Fixpoint distinct (l : list string) : bool :=
  match l with
  | [] => true
  | s :: l' => negb (existsb (String.eqb s) l') && distinct l'
  end.

(** No dict of the tree has two keys with the same string form. *)
Fixpoint collision_free (v : value) : bool :=
  match v with
  | VList l => forallb collision_free l
  | VDict d =>
      distinct (map (fun kv => str_of_key (fst kv)) d)
      && forallb (fun kv => collision_free (snd kv)) d
  | _ => true
  end.

(** The number of items of a dict. *)
Definition dict_len (v : value) : nat :=
  match v with
  | VDict d => List.length d
  | _ => O
  end.

(** The value under a key, as [d[k]] finds it. *)
Fixpoint dict_get (k : key) (d : pydict) : option value :=
  match d with
  | [] => None
  | (k', v) :: d' => if key_eqb k' k then Some v else dict_get k d'
  end.

(** No key of [d] has the string form [k]. *)
Definition fresh (k : string) (d : pydict) : bool :=
  negb (existsb (String.eqb k) (map (fun kv => str_of_key (fst kv)) d)).

(** The keys of [d] are of type [str]. *)
Definition str_keys (d : pydict) : Prop :=
  Forall (fun kv => isinstance_str (fst kv) = true) d.

(** The items of a dict with every key in its string form and every value
    converted: what the dict comprehension of [_convert_key_to_str] inserts,
    in order. *)
Definition coerced_items (d : pydict) : pydict :=
  map (fun kv => (KStr (str_of_key (fst kv)), fst (_convert_key_to_str (snd kv)))) d.

(** [{1: 'a', '1': 'b'}]. *)
Definition colliding_dict : pydict :=
  [(KInt 1, VStr "a"); (KStr "1", VStr "b")].

(** [{2: [{None: 1}], 'a': 'x'}]. *)
Definition sample_tree : value :=
  VDict [(KInt 2, VList [VDict [(KNone, VInt 1)]]); (KStr "a", VStr "x")].

(** What can follow a value in a JSON text: the end, or one of [,], []] and
    [}]. *)
Definition closes (rest : string) : bool :=
  match rest with
  | EmptyString => true
  | String c _ => Ascii.eqb c "," || Ascii.eqb c "]" || Ascii.eqb c "}"
  end.

(** The text [json_dumps] writes after the first item of a list, and after
    the first item of a dict. *)
Definition array_tail (l : list value) : string :=
  (fix rest (l : list value) : string :=
     match l with
     | [] => "]"
     | y :: l' => ", " +:+ json_dumps y +:+ rest l'
     end) l.

Definition object_tail (d : pydict) : string :=
  (fix rest (d : pydict) : string :=
     match d with
     | [] => "}"
     | kv :: d' =>
         ", " +:+ encode_basestring_ascii (json_key (fst kv)) +:+ ": " +:+
         json_dumps (snd kv) +:+ rest d'
     end) d.

(** The first character of a value in a JSON text: no blank and no closing
    bracket. *)
Definition starts_value (s : string) : bool :=
  match s with
  | EmptyString => false
  | String c _ => negb (is_ws c) && negb (Ascii.eqb c "]")
  end.

(** Fuel that [scan_once] needs for the text of a tree. *)
Fixpoint need (v : value) : nat :=
  match v with
  | VList l => S (List.length l + list_sum (map need l))
  | VDict d => S (List.length d + list_sum (map (fun kv => need (snd kv)) d))
  | _ => 1
  end.

(** Every character of the text is one of [' '..'~']. *)
Fixpoint printable (s : string) : bool :=
  match s with
  | EmptyString => true
  | String c r => (32 <=? ord c)%N && (ord c <=? 126)%N && printable r
  end.





(** The name [_write_to_file] gives its temporary file. *)
Definition tmp_name (tok fn : string) : string := "._" +:+ tok +:+ "_" +:+ fn.

Definition tmp_path (tok : string) (f : path) : path :=
  os_path_join (fst (os_path_split f)) (tmp_name tok (snd (os_path_split f))).

(** The world after a system call [c] that left the disk [d]. *)
Definition record_call (c : syscall) (d : gmap path node) (w : world) : world :=
  set_syscalls (fun t => t ++ [(c, d)]) (set_disk (fun _ => d) w).

(** The tests of [_load] and of [_sync] for buffered mode. *)
Definition buffered_for_load (w : world) (o : instance) : bool :=
  (0 <? _buffered_scopes w) || negb (_buffered o =? 0).

Definition buffered_for_sync (w : world) (o : instance) : bool :=
  (0 <? _buffered_scopes w) || (0 <? _buffered o).


(** The bytes [_sync] writes for a tree. *)
Definition sync_blob (data : value) : bytes :=
  str_encode (json_dumps (fst (_convert_key_to_str data))).

(** A call that leaves every object of the heap as it is. *)
Definition keeps_objects {A : Type} (m : Py A) : Prop :=
  forall w, objects (snd (m w)) = objects w.

(** Sample worlds: one collection object at address 0 on [/data/doc.json],
    with [write_concern] set, and nothing else. *)
Definition doc : path := "/data/doc.json".

Definition sample_object : instance :=
  Instance (Some doc) true (Some doc) sample_tree 0 true.

Definition sample_world (d : gmap path node) (scopes : Z)
    (validators : list (value -> bool)) : world :=
  World d {[ 0%nat := sample_object ]} ∅ ∅ scopes validators [] [].

(** The text of a UUID. *)
Definition sample_token : string := "123e4567-e89b-42d3-a456-426614174000".

(** A file system in which [/link/doc.json] is a symbolic link to
    [/data/doc.json], and two collections made through the two paths. *)
Definition resolve_link (p : path) : path :=
  if String.eqb p "/link/doc.json" then doc else p.

Definition two_instances (w : world) : world :=
  snd (JSONCollection.__init__ resolve_link 2%nat (Some "/link/doc.json") false VNone
         (snd (JSONCollection.__init__ resolve_link 1%nat (Some doc) true sample_tree w))).

(** Every character of the text is a JSON blank. *)
Fixpoint blank (s : string) : bool :=
  match s with
  | EmptyString => true
  | String c r => is_ws c && blank r
  end.

(** The system call reads a file. *)
Definition is_read (c : syscall) : bool :=
  match c with
  | OpenRead _ => true
  | OpenWrite _ | Write _ _ | Replace _ _ => false
  end.

(** A call that makes only system calls of the kind [P]. *)
Definition only_calls {A : Type} (P : syscall -> bool) (m : Py A) : Prop :=
  forall w, exists calls,
    syscalls (snd (m w)) = syscalls w ++ calls /\
    Forall (fun cd => P (fst cd) = true) calls.

(** A call that leaves the disk as it is. *)
Definition keeps_disk {A : Type} (m : Py A) : Prop :=
  forall w, disk (snd (m w)) = disk w.

(** ** [signac/contrib/conversion.py]: the adapter registry

    A class is a value that holds its base class; the registry is a dict of
    the heap, reached through the attribute [registry] of the class that
    owns it, so that the subclasses of one base share one dict.  What the
    adapters convert is left open: the objects, the types, [str] of a type,
    [isinstance] and the call of a type are parameters. *)

Module Conversion.

Definition WEIGHT_DEFAULT : Z := 1.
Definition WEIGHT_DISCOURAGED : Z := 10.
Definition WEIGHT_STRONGLY_DISCOURAGED : Z := 100.

(** What a call in this module can raise: the error of an [assert], of a
    missing attribute, of [isinstance] or a call on [None], or whatever one
    of the parameters raises. *)
Inductive cexn : Type :=
| AssertionError
| AttributeError
| NotAType
| Raised (e : exn).

Inductive cresult (A : Type) : Type :=
| Done (a : A)
| Failed (e : cexn).
Arguments Done {A} a.
Arguments Failed {A} e.

Section Adapters.
Variable obj : Type.
Variable pytype : Type.
(** [str(t)], [isinstance(x, t)] and [t(x)] for a type [t]. *)
Variable type_str : pytype -> string.
Variable isinstance : obj -> pytype -> bool.
Variable construct : pytype -> obj -> cresult obj.

(** The [__call__] a class body defines: the one of [Adapter], or the one
    [make_adapter] writes around [convert]. *)
Inductive callimpl : Type :=
| AdapterCall
| ConvertCall (convert : obj -> cresult obj).

(** A class: its own attributes ([None] when the class body does not set
    one) and its base.  [expects] and [returns] hold a type or [None]. *)
Unset Elimination Schemes.
Inductive klass : Type := Klass {
  k_id : nat;
  k_base : option klass;
  k_registry : option nat;
  k_expects : option (option pytype);
  k_returns : option (option pytype);
  k_weight : option Z;
  k_call : option callimpl
}.
Set Elimination Schemes.

(** [cls.<attribute>]: the class itself, then its bases. *)
Fixpoint mro {A : Type} (own : klass -> option A) (cls : klass) : option A :=
  match own cls with
  | Some a => Some a
  | None =>
      match cls with
      | Klass _ (Some base) _ _ _ _ _ => mro own base
      | Klass _ None _ _ _ _ _ => None
      end
  end.

(** The dicts of the heap, and the next free address. *)
Record cstate : Type := CState {
  registries : gmap nat (gmap string klass);
  next_id : nat
}.

Definition CM (A : Type) : Type := cstate -> cresult A * cstate.

(** ["{}".format(t)] for a type or [None]. *)
Definition format_type (t : option pytype) : string :=
  match t with
  | Some t => type_str t
  | None => "None"
  end.

(** ["{}_to_{}".format(expects, returns)]. *)
Definition identifier (expects returns : option pytype) : string :=
  format_type expects +:+ "_to_" +:+ format_type returns.

(** [AdapterMetaType.__init__(cls, name, bases, dct)]: the class as it is
    afterwards.  A class without a [registry] gets a new dict; any other is
    stored in the registry it inherits, under its identifier.  (The address
    an attribute [registry] holds is an address of the heap; for one that is
    not the model answers with an [AttributeError].) *)
Definition AdapterMetaType__init__ (cls : klass) : CM klass := fun st =>
  match mro k_registry cls with
  | None =>
      (Done (Klass (k_id cls) (k_base cls) (Some (next_id st)) (k_expects cls)
                   (k_returns cls) (k_weight cls) (k_call cls)),
       CState (<[next_id st := ∅]> (registries st)) (S (next_id st)))
  | Some r =>
      match mro k_expects cls with
      | None => (Failed AttributeError, st)
      | Some expects =>
          match mro k_returns cls with
          | None => (Failed AttributeError, st)
          | Some returns =>
              match registries st !! r with
              | None => (Failed AttributeError, st)
              | Some reg =>
                  (Done cls,
                   CState (<[r := <[identifier expects returns := cls]> reg]>
                             (registries st))
                          (next_id st))
              end
          end
      end
  end.

(** [class Adapter(metaclass=AdapterMetaType)]. *)
Definition class_Adapter : CM klass := fun st =>
  AdapterMetaType__init__
    (Klass (next_id st) None None (Some None) (Some None) (Some WEIGHT_DEFAULT)
           (Some AdapterCall))
    (CState (registries st) (S (next_id st))).

(** [make_adapter(src, dst, convert=None, w=None)]; [adapter] is the class
    [Adapter] of the module.  The body of [BasicAdapter] sets [weight] when
    [w] is given and [__call__] when [convert] is. *)
Definition BasicAdapter (adapter : klass) (src dst : option pytype)
    (convert : option (obj -> cresult obj)) (w : option Z) (id : nat) : klass :=
  Klass id (Some adapter) None (Some src) (Some dst) w (option_map ConvertCall convert).

Definition make_adapter (adapter : klass) (src dst : option pytype)
    (convert : option (obj -> cresult obj)) (w : option Z) : CM klass := fun st =>
  AdapterMetaType__init__
    (BasicAdapter adapter src dst convert w (next_id st))
    (CState (registries st) (S (next_id st))).

(** [cls()(x)]: the call of an instance.  [Adapter.__call__] asserts
    [isinstance(x, self.expects)] and returns [self.returns(x)]. *)
Definition call (cls : klass) (x : obj) : cresult obj :=
  match mro k_call cls with
  | None => Failed NotAType
  | Some (ConvertCall convert) => convert x
  | Some AdapterCall =>
      match mro k_expects cls with
      | None => Failed AttributeError
      | Some None => Failed NotAType
      | Some (Some t) =>
          if isinstance x t then
            match mro k_returns cls with
            | None => Failed AttributeError
            | Some None => Failed NotAType
            | Some (Some t') => construct t' x
            end
          else Failed AssertionError
      end
  end.

(** [cls.registry]: the dict, through the heap. *)
Definition registry_of (cls : klass) (st : cstate) : option (gmap string klass) :=
  match mro k_registry cls with
  | Some r => registries st !! r
  | None => None
  end.
End Adapters.
End Conversion.

(** Sample adapters: types are named by strings, [int] objects convert to
    [str]; the class [Adapter] as its class statement leaves it in an empty
    heap, and that heap. *)
Definition sample_type_str (t : string) : string := "<class '" +:+ t +:+ "'>".

Definition sample_isinstance (v : value) (t : string) : bool :=
  match v with
  | VNone => String.eqb t "NoneType"
  | VBool _ => String.eqb t "bool" || String.eqb t "int"
  | VInt _ => String.eqb t "int"
  | VStr _ => String.eqb t "str"
  | VList _ => String.eqb t "list"
  | VDict _ => String.eqb t "dict"
  end.

Definition sample_construct (t : string) (v : value) : Conversion.cresult value :=
  match v with
  | VInt z => if String.eqb t "str" then Conversion.Done (VStr (str_of_int z))
              else if String.eqb t "int" then Conversion.Done v
              else Conversion.Failed (Conversion.Raised TypeError)
  | _ => Conversion.Failed (Conversion.Raised TypeError)
  end.

Definition sample_adapter : Conversion.klass value string :=
  Conversion.Klass value string 0 None (Some 1%nat) (Some None) (Some None)
    (Some Conversion.WEIGHT_DEFAULT) (Some (Conversion.AdapterCall value)).

Definition sample_cstate : Conversion.cstate value string :=
  Conversion.CState value string {[ 1%nat := ∅ ]} 2.

(** Closes a goal between closed terms by evaluation. *)
Ltac evaluated := vm_compute; reflexivity.

(** * Properties *)

(** ** Sample runs *)

Example convert_nested :
  _convert_key_to_str
    (VDict [(KInt 1, VList [VDict [(KNone, VInt 2)]]); (KStr "a", VNone)])
  = (VDict [(KStr "1", VList [VDict [(KStr "None", VInt 2)]]); (KStr "a", VNone)],
     [key_deprecated (KInt 1); key_deprecated KNone]).
Proof. reflexivity. Qed.

Example convert_collision :
  fst (_convert_key_to_str (VDict [(KInt 1, VStr "a"); (KStr "1", VStr "b")]))
  = VDict [(KStr "1", VStr "b")].
Proof. reflexivity. Qed.

Example dumps_sample :
  json_dumps (VDict [(KStr "a", VList [VInt 1; VInt (-20); VNone]);
                     (KStr (String "010" "x\"), VBool true)])
  = String "{" (String quote ("a" +:+ String quote (": [1, -20, null], " +:+
      String quote ("\nx\\" +:+ String quote ": true}")))).
Proof. reflexivity. Qed.

Example dumps_control : json_dumps (VStr (String "001" (String "233" EmptyString)))
  = String quote ("\u0001\u00e9" +:+ String quote EmptyString).
Proof. reflexivity. Qed.

Example decode_sample :
  decode (" {" +:+ String quote ("a" +:+ String quote (" : [1, -20 ,null, [], {}],"
          +:+ String quote ("A\n" +:+ String quote ":true} "))))
  = Some (VDict [(KStr "a", VList [VInt 1; VInt (-20); VNone; VList []; VDict []]);
                 (KStr (String "A" (String "010" EmptyString)), VBool true)]).
Proof. vm_compute. reflexivity. Qed.

Example decode_leading_zero : decode "01" = None.
Proof. reflexivity. Qed.

Example decode_trailing_comma : decode "[1,]" = None.
Proof. reflexivity. Qed.

Example decode_float : decode "1.5" = None.
Proof. reflexivity. Qed.

Example loads_null : json_loads (Some (str_encode (json_dumps VNone))) = Ok VNone.
Proof. reflexivity. Qed.

Example split_nested : os_path_split "/tmp/ws/doc.json" = ("/tmp/ws", "doc.json").
Proof. reflexivity. Qed.
Example split_root : os_path_split "/doc.json" = ("/", "doc.json").
Proof. reflexivity. Qed.
Example split_bare : os_path_split "doc.json" = (EmptyString, "doc.json").
Proof. reflexivity. Qed.
Example split_slashes : os_path_split "a//b" = ("a", "b").
Proof. reflexivity. Qed.
Example join_nested : os_path_join "/tmp/ws" "._t_doc.json" = "/tmp/ws/._t_doc.json".
Proof. reflexivity. Qed.
Example join_root : os_path_join "/" "x" = "/x".
Proof. reflexivity. Qed.
Example join_bare : os_path_join EmptyString "x" = "x".
Proof. reflexivity. Qed.

Example sync_then_load_durable :
  fst (JSONCollection._load (fun b => b) 0%nat
         (snd (JSONCollection._sync (fun b => b) sample_token 0%nat (sample_world ∅ 0 []))))
  = Ok (VDict [(KStr "2", VList [VDict [(KStr "None", VInt 1)]]); (KStr "a", VStr "x")]).
Proof. vm_compute. reflexivity. Qed.

Example sync_durable_calls :
  map fst (syscalls (snd (JSONCollection._sync (fun b => b) sample_token 0%nat
                            (sample_world ∅ 0 []))))
  = [OpenWrite "/data/._123e4567-e89b-42d3-a456-426614174000_doc.json";
     Write "/data/._123e4567-e89b-42d3-a456-426614174000_doc.json" (sync_blob sample_tree);
     Replace "/data/._123e4567-e89b-42d3-a456-426614174000_doc.json" doc].
Proof. vm_compute. reflexivity. Qed.

(** Without [write_concern] the target is open, and empty, between the two
    system calls. *)
Example write_fast_truncates :
  map (fun cd => snd cd !! doc)
      (syscalls (snd (JSONCollection._write_to_file sample_token (Some doc) "[1]" false
                        (sample_world {[ doc := File "[]" ]} 0 []))))
  = [Some (File EmptyString); Some (File "[1]")].
Proof. vm_compute. reflexivity. Qed.

Example load_denied :
  fst (JSONCollection._load (fun b => b) 0%nat
         (sample_world {[ doc := Fault EACCES ]} 0 [])) = Raise TypeError.
Proof. vm_compute. reflexivity. Qed.

(** ** Dicts *)

Lemma str_key_fst (k : key) : fst (_str_key k) = KStr (str_of_key k).
Proof. destruct k; reflexivity. Qed.

Lemma str_key_snd (k : key) :
  snd (_str_key k) = if isinstance_str k then [] else [key_deprecated k].
Proof. destruct k; reflexivity. Qed.

Lemma dict_set_fresh (s : string) (v : value) (d : pydict) :
  str_keys d -> fresh s d = true -> dict_set (KStr s) v d = d ++ [(KStr s, v)].
Proof.
  unfold fresh. induction d as [|[k x] d IH]; intros Hk Hf; [reflexivity|].
  inversion Hk as [|? ? Hk1 Hk2]; subst. destruct k; try discriminate.
  simpl in *. rewrite negb_orb in Hf. apply andb_prop in Hf as [Hne Hf].
  rewrite String.eqb_sym. apply negb_true_iff in Hne. rewrite Hne.
  f_equal. now apply IH.
Qed.

Lemma fold_dict_set_distinct (items acc : pydict) :
  str_keys acc -> str_keys items ->
  distinct (map (fun kv => str_of_key (fst kv)) (acc ++ items)) = true ->
  fold_left (fun d kv => dict_set (fst kv) (snd kv) d) items acc = acc ++ items.
Proof.
  revert acc. induction items as [|[k v] items IH]; intros acc Ha Hi Hd.
  - now rewrite app_nil_r.
  - inversion Hi as [|? ? Hi1 Hi2]; subst. destruct k; try discriminate.
    simpl. rewrite dict_set_fresh; trivial.
    + change (acc ++ (KStr s, v) :: items) with (acc ++ [(KStr s, v)] ++ items).
      rewrite app_assoc. apply IH; trivial.
      * apply Forall_app; split; [trivial | now constructor].
      * now rewrite <- app_assoc.
    + clear IH Ha Hi Hi1 Hi2. unfold fresh.
      induction acc as [|[k x] acc IHa]; [reflexivity|].
      simpl in Hd. apply andb_prop in Hd as [Hh Hd].
      simpl. rewrite negb_orb. rewrite IHa by exact Hd. rewrite andb_true_r.
      rewrite map_app, existsb_app in Hh. simpl in Hh.
      rewrite !negb_orb in Hh. apply andb_prop in Hh as [_ Hh].
      apply andb_prop in Hh as [Hh _]. now rewrite String.eqb_sym.
Qed.

Lemma dict_of_items_distinct (items : pydict) :
  str_keys items ->
  distinct (map (fun kv => str_of_key (fst kv)) items) = true ->
  dict_of_items items = items.
Proof.
  intros Hk Hd. unfold dict_of_items.
  now rewrite fold_dict_set_distinct; [| constructor | |].
Qed.


Lemma dict_set_str_keys (s : string) (v : value) (d : pydict) :
  str_keys d -> str_keys (dict_set (KStr s) v d).
Proof.
  induction d as [|[k x] d IH]; intros Hk; simpl.
  - repeat constructor.
  - inversion Hk as [|? ? Hk1 Hk2]; subst.
    destruct (key_eqb k (KStr s)); constructor; simpl in *; auto.
    now apply IH.
Qed.

Lemma dict_set_values (P : value -> Prop) (k : key) (v : value) (d : pydict) :
  P v -> Forall (fun kv => P (snd kv)) d ->
  Forall (fun kv => P (snd kv)) (dict_set k v d).
Proof.
  intros Hv. induction d as [|[k' x] d IH]; intros Hd; simpl.
  - repeat constructor. exact Hv.
  - inversion Hd as [|? ? Hd1 Hd2]; subst.
    destruct (key_eqb k' k); constructor; simpl in *; auto.
Qed.

Lemma fold_dict_set_invariant (P : value -> Prop) (items acc : pydict) :
  str_keys items -> Forall (fun kv => P (snd kv)) items ->
  str_keys acc -> Forall (fun kv => P (snd kv)) acc ->
  let d := fold_left (fun d kv => dict_set (fst kv) (snd kv) d) items acc in
  str_keys d /\ Forall (fun kv => P (snd kv)) d.
Proof.
  revert acc. induction items as [|[k v] items IH]; intros acc Hk Hp Ha Hq; simpl.
  - now split.
  - inversion Hk as [|? ? Hk1 Hk2]; inversion Hp as [|? ? Hp1 Hp2]; subst.
    destruct k; try discriminate. apply IH; trivial.
    + now apply dict_set_str_keys.
    + now apply dict_set_values.
Qed.

Lemma all_keys_str_dict (d : pydict) :
  all_keys_str (VDict d) = true <->
  str_keys d /\ Forall (fun kv => all_keys_str (snd kv) = true) d.
Proof.
  unfold str_keys. simpl. rewrite forallb_forall, !List.Forall_forall. split.
  - intros H. split; intros kv Hin; apply H in Hin;
      apply andb_prop in Hin; tauto.
  - intros [H1 H2] kv Hin. now rewrite H1, H2.
Qed.

(** ** Key coercion *)

Lemma convert_all_keys_str (data : value) :
  all_keys_str (fst (_convert_key_to_str data)) = true.
Proof.
  induction data as [| | | |l IH|d IH] using value_tree_ind; try reflexivity.
  - simpl. rewrite forallb_forall. intros x Hin.
    apply in_map_iff in Hin as [y [<- Hin]].
    apply in_map_iff in Hin as [z [<- Hin]].
    rewrite List.Forall_forall in IH. now apply IH.
  - cbn [_convert_key_to_str fst]. apply all_keys_str_dict.
    rewrite !map_map. cbn [fst].
    apply (fold_dict_set_invariant (fun v => all_keys_str v = true)).
    + apply List.Forall_forall. intros kv Hin.
      apply in_map_iff in Hin as [y [<- Hin]]. cbn [fst].
      now rewrite str_key_fst.
    + apply List.Forall_forall. intros kv Hin.
      apply in_map_iff in Hin as [y [<- Hin]]. cbn [snd].
      rewrite List.Forall_forall in IH. now apply IH.
    + constructor.
    + constructor.
Qed.

Lemma convert_warnings (data : value) :
  snd (_convert_key_to_str data) = deprecations data.
Proof.
  induction data as [| | | |l IH|d IH] using value_tree_ind; try reflexivity.
  - cbn [_convert_key_to_str snd deprecations]. f_equal. rewrite map_map.
    apply map_ext_in. intros x Hin. rewrite List.Forall_forall in IH. now apply IH.
  - cbn [_convert_key_to_str snd deprecations]. f_equal. rewrite map_map.
    apply map_ext_in. intros kv Hin. cbn [snd].
    rewrite List.Forall_forall in IH. now rewrite str_key_snd, IH.
Qed.

Lemma convert_collision_free (data : value) :
  collision_free data = true ->
  fst (_convert_key_to_str data) = keys_replaced data.
Proof.
  induction data as [| | | |l IH|d IH] using value_tree_ind; try reflexivity; intros Hc.
  - cbn [_convert_key_to_str fst keys_replaced]. f_equal. rewrite map_map.
    apply map_ext_in. intros x Hin. rewrite List.Forall_forall in IH.
    simpl in Hc. rewrite forallb_forall in Hc. now apply IH; [|apply Hc].
  - cbn [_convert_key_to_str fst keys_replaced]. f_equal.
    simpl in Hc. apply andb_prop in Hc as [Hd Hc]. rewrite forallb_forall in Hc.
    rewrite !map_map. cbn [fst].
    rewrite dict_of_items_distinct.
    + apply map_ext_in. intros kv Hin. rewrite str_key_fst. f_equal.
      rewrite List.Forall_forall in IH. now apply IH; [|apply Hc].
    + apply List.Forall_forall. intros kv Hin.
      apply in_map_iff in Hin as [y [<- Hin]]. cbn [fst]. now rewrite str_key_fst.
    + rewrite map_map. cbn [fst].
      erewrite map_ext; [exact Hd|]. intros kv. cbn. now rewrite str_key_fst.
Qed.

Lemma keys_replaced_str_keys (data : value) :
  all_keys_str data = true -> keys_replaced data = data.
Proof.
  induction data as [| | | |l IH|d IH] using value_tree_ind; try reflexivity; intros Hs.
  - simpl. f_equal. simpl in Hs. rewrite forallb_forall in Hs.
    rewrite List.Forall_forall in IH.
    rewrite <- (map_id l) at 2. apply map_ext_in. intros x Hin. now apply IH; [|apply Hs].
  - apply all_keys_str_dict in Hs as [Hk Hv]. unfold str_keys in Hk. simpl. f_equal.
    rewrite List.Forall_forall in IH, Hk, Hv.
    rewrite <- (map_id d) at 2. apply map_ext_in. intros [k v] Hin.
    specialize (Hk _ Hin). destruct k; try discriminate. cbn.
    f_equal. apply (IH _ Hin). now apply (Hv _ Hin).
Qed.

Lemma deprecations_str_keys (data : value) :
  all_keys_str data = true -> deprecations data = [].
Proof.
  induction data as [| | | |l IH|d IH] using value_tree_ind; try reflexivity; intros Hs.
  - simpl in *. rewrite forallb_forall in Hs. rewrite List.Forall_forall in IH.
    apply concat_nil_Forall, List.Forall_forall. intros ws Hin.
    apply in_map_iff in Hin as [x [<- Hin]]. now apply IH; [|apply Hs].
  - apply all_keys_str_dict in Hs as [Hk Hv]. unfold str_keys in Hk.
    rewrite List.Forall_forall in IH, Hk, Hv. simpl.
    apply concat_nil_Forall, List.Forall_forall. intros ws Hin.
    apply in_map_iff in Hin as [kv [<- Hin]].
    rewrite (Hk _ Hin). now apply (IH _ Hin), Hv.
Qed.

Lemma convert_dict_items (d : pydict) :
  fst (_convert_key_to_str (VDict d)) = VDict (dict_of_items (coerced_items d)).
Proof.
  cbn [_convert_key_to_str fst]. unfold coerced_items. rewrite !map_map. cbn [fst].
  do 2 f_equal. apply map_ext. intros kv. now rewrite str_key_fst.
Qed.

Lemma key_eqb_str_r (k : key) (s : string) :
  key_eqb k (KStr s) = true -> k = KStr s.
Proof.
  destruct k; simpl; try discriminate. intros H. f_equal. now apply String.eqb_eq.
Qed.

Lemma dict_get_set (s t : string) (v : value) (d : pydict) :
  dict_get (KStr s) (dict_set (KStr t) v d)
  = if String.eqb t s then Some v else dict_get (KStr s) d.
Proof.
  induction d as [|[k x] d IH]; simpl.
  - reflexivity.
  - destruct (key_eqb k (KStr t)) eqn:Ekt; simpl.
    + apply key_eqb_str_r in Ekt. subst k. simpl.
      destruct (String.eqb t s); reflexivity.
    + rewrite IH. destruct (key_eqb k (KStr s)) eqn:Eks; [|reflexivity].
      apply key_eqb_str_r in Eks. subst k. simpl in Ekt.
      rewrite String.eqb_sym, Ekt. reflexivity.
Qed.

Lemma dict_get_app (k : key) (d1 d2 : pydict) :
  dict_get k (d1 ++ d2)
  = match dict_get k d1 with Some v => Some v | None => dict_get k d2 end.
Proof.
  induction d1 as [|[k' x] d1 IH]; simpl; [reflexivity|].
  now destruct (key_eqb k' k).
Qed.

(** Under a key, a dict built from string-keyed items holds the value of
    the last item with that key. *)
Lemma dict_get_fold (s : string) (items acc : pydict) :
  str_keys items ->
  dict_get (KStr s) (fold_left (fun d kv => dict_set (fst kv) (snd kv) d) items acc)
  = match dict_get (KStr s) (rev items) with
    | Some v => Some v
    | None => dict_get (KStr s) acc
    end.
Proof.
  revert acc. induction items as [|[k v] items IH]; intros acc Hk; simpl.
  - reflexivity.
  - inversion Hk as [|? ? Hk1 Hk2]; subst. destruct k; try discriminate.
    rewrite IH by exact Hk2. rewrite dict_get_app, dict_get_set. simpl.
    destruct (dict_get (KStr s) (rev items)); [reflexivity|].
    rewrite (String.eqb_sym s0 s). now destruct (String.eqb s s0).
Qed.

Lemma coerced_items_str_keys (d : pydict) : str_keys (coerced_items d).
Proof.
  apply List.Forall_forall. intros kv Hin.
  now apply in_map_iff in Hin as [y [<- Hin]].
Qed.

Lemma convert_later_item_wins (d : pydict) (s : string) :
  dict_get (KStr s) (dict_of_items (coerced_items d))
  = dict_get (KStr s) (rev (coerced_items d)).
Proof.
  unfold dict_of_items. rewrite dict_get_fold by apply coerced_items_str_keys.
  now destruct (dict_get (KStr s) (rev (coerced_items d))).
Qed.

(** C7 (as amended).  For every tree of dicts, lists and scalars,
    [_convert_key_to_str] returns (it is a total function: it never raises)
    a tree in which every key at every depth is a string, and emits one
    deprecation warning for each key that is not a string.  When no dict of
    the tree has two keys with the same string form, the result is the
    input tree with every non-string key replaced by [str(key)], string
    keys and all other values unchanged; a tree whose keys are all strings
    comes back as it is, with no warning. *)
Theorem convert_key_to_str_coerces (data : value) :
  all_keys_str (fst (_convert_key_to_str data)) = true /\
  snd (_convert_key_to_str data) = deprecations data /\
  (collision_free data = true ->
   fst (_convert_key_to_str data) = keys_replaced data /\
   (all_keys_str data = true -> _convert_key_to_str data = (data, []))).
Proof.
  split; [apply convert_all_keys_str|].
  split; [apply convert_warnings|].
  intros Hc. split; [now apply convert_collision_free|].
  intros Hs. rewrite (surjective_pairing (_convert_key_to_str data)).
  rewrite convert_warnings, convert_collision_free by exact Hc.
  now rewrite keys_replaced_str_keys, deprecations_str_keys.
Qed.

Lemma convert_key_to_str_coerces_witness :
  fst (_convert_key_to_str sample_tree)
  = VDict [(KStr "2", VList [VDict [(KStr "None", VInt 1)]]); (KStr "a", VStr "x")].
Proof.
  exact (eq_trans
           (proj1 (proj2 (proj2 (convert_key_to_str_coerces sample_tree)) eq_refl))
           eq_refl).
Defined.

(** C7, the claim as it is written, fails on [{1: 'a', '1': 'b'}]: the tree
    with the key [1] replaced by ['1'] has the two items of the input, the
    tree [_convert_key_to_str] returns has one, and the value ['a'] is not
    in it. *)
Lemma convert_key_to_str_loses_item :
  keys_replaced (VDict colliding_dict)
    = VDict [(KStr "1", VStr "a"); (KStr "1", VStr "b")] /\
  fst (_convert_key_to_str (VDict colliding_dict)) = VDict [(KStr "1", VStr "b")].
Proof. split; reflexivity. Qed.

(** C10.  Key coercion is not injective.  The dict [{1: 'a', '1': 'b'}]
    holds both the key [1] and the key ['1']; [_convert_key_to_str] returns
    a dict with fewer items, in which ['1'] has the value of the later item,
    and the only warning is the deprecation warning for the key [1].  In
    general the value under a key of the result is the converted value of
    the last item whose key has that string form. *)
Theorem key_coercion_collides :
  (dict_get (KInt 1) colliding_dict = Some (VStr "a") /\
   dict_get (KStr "1") colliding_dict = Some (VStr "b") /\
   _convert_key_to_str (VDict colliding_dict)
     = (VDict [(KStr "1", VStr "b")], [key_deprecated (KInt 1)]) /\
   (dict_len (fst (_convert_key_to_str (VDict colliding_dict)))
    < dict_len (VDict colliding_dict))%nat) /\
  (forall (d : pydict) (s : string),
     exists d', fst (_convert_key_to_str (VDict d)) = VDict d' /\
                dict_get (KStr s) d' = dict_get (KStr s) (rev (coerced_items d))).
Proof.
  split.
  - repeat split. simpl. lia.
  - intros d s. exists (dict_of_items (coerced_items d)). split.
    + apply convert_dict_items.
    + apply convert_later_item_wins.
Qed.

(** ** Strings *)

Lemma append_cons (x : ascii) (a b : string) : String x a +:+ b = String x (a +:+ b).
Proof. reflexivity. Qed.

Lemma append_assoc (a b c : string) : (a +:+ b) +:+ c = a +:+ (b +:+ c).
Proof. induction a as [|x a IH]; [reflexivity | now rewrite !append_cons, IH]. Qed.

Lemma append_nil_r (a : string) : a +:+ EmptyString = a.
Proof. induction a as [|x a IH]; [reflexivity | now rewrite append_cons, IH]. Qed.

Lemma length_append (a b : string) :
  String.length (a +:+ b) = (String.length a + String.length b)%nat.
Proof. induction a as [|x a IH]; [reflexivity | rewrite append_cons; simpl; now rewrite IH]. Qed.

(** ** Strings of a JSON text *)

Lemma scanstring_escape_char (c : ascii) (tail : string) :
  scanstring (escape_char c +:+ tail) = cons_char c (scanstring tail).
Proof.
  destruct c as [[] [] [] [] [] [] [] []]; reflexivity.
Qed.

Lemma scanstring_escape_body (s rest : string) :
  scanstring (escape_body s +:+ String quote rest) = Some (s, rest).
Proof.
  induction s as [|c s IH]; [reflexivity|].
  cbn [escape_body]. now rewrite append_assoc, scanstring_escape_char, IH.
Qed.

Lemma encode_basestring_ascii_app (s rest : string) :
  encode_basestring_ascii s +:+ rest
  = String quote (escape_body s +:+ String quote rest).
Proof.
  unfold encode_basestring_ascii. now rewrite append_cons, append_assoc.
Qed.

(** ** Integers of a JSON text *)

Lemma closes_no_digit (rest : string) : closes rest = true -> starts_with_digit rest = false.
Proof.
  destruct rest as [|c r]; [reflexivity|]. simpl.
  destruct c as [[] [] [] [] [] [] [] []]; try discriminate; reflexivity.
Qed.

Lemma closes_no_float (rest : string) : closes rest = true -> float_tail rest = false.
Proof.
  destruct rest as [|c r]; [reflexivity|]. simpl.
  destruct c as [[] [] [] [] [] [] [] []]; try discriminate; reflexivity.
Qed.

Lemma scan_digits_uint (u : Decimal.uint) (rest : string) :
  starts_with_digit rest = false ->
  scan_digits (NilEmpty.string_of_uint u +:+ rest) = (u, rest).
Proof.
  intros Hr. induction u; cbn [NilEmpty.string_of_uint];
    try (rewrite append_cons; cbn [scan_digits digit_of Ascii.eqb Bool.eqb];
         rewrite IHu; reflexivity).
  destruct rest as [|c r]; [reflexivity|].
  change (EmptyString +:+ String c r) with (String c r).
  cbn [scan_digits]. unfold starts_with_digit, is_digit in Hr.
  now destruct (digit_of c).
Qed.

Lemma to_uint_unorm (p : positive) : Decimal.unorm (Pos.to_uint p) = Pos.to_uint p.
Proof.
  rewrite <- DecimalPos.Unsigned.to_of, DecimalPos.Unsigned.of_to. reflexivity.
Qed.

(** The decimal form of a positive number starts with a digit that is not
    zero. *)
Lemma to_uint_head (p : positive) :
  match Pos.to_uint p with
  | Decimal.Nil | Decimal.D0 _ => False
  | _ => True
  end.
Proof.
  pose proof (to_uint_unorm p) as Hn.
  pose proof (DecimalPos.Unsigned.to_uint_nonzero p) as Hz.
  destruct (Pos.to_uint p) as [|u| | | | | | | | |] eqn:E; try exact I.
  - now apply (DecimalPos.Unsigned.to_uint_nonnil p).
  - rewrite DecimalFacts.unorm_D0 in Hn.
    destruct u as [|u|u|u|u|u|u|u|u|u|u];
      [now apply Hz| | | | | | | | | |];
      match type of Hn with
      | Decimal.unorm ?v = _ =>
          assert (Hv : v <> Decimal.Nil) by discriminate;
          pose proof (DecimalFacts.nb_digits_unorm v Hv) as Hl;
          rewrite Hn in Hl; simpl in Hl; lia
      end.
Qed.

Lemma scan_intpart_pos (p : positive) (rest : string) :
  closes rest = true ->
  scan_intpart (NilZero.string_of_uint (Pos.to_uint p) +:+ rest)
  = Some (Pos.to_uint p, rest).
Proof.
  intros Hr. pose proof (to_uint_head p) as Hh.
  pose proof (closes_no_digit rest Hr) as Hd.
  destruct (Pos.to_uint p) as [|u|u|u|u|u|u|u|u|u|u]; try contradiction;
    cbn [NilZero.string_of_uint NilEmpty.string_of_uint];
    rewrite append_cons; cbn [scan_intpart digit_of Ascii.eqb Bool.eqb];
    now rewrite scan_digits_uint.
Qed.

Lemma match_number_int (z : Z) (rest : string) :
  closes rest = true ->
  match_number (str_of_int z +:+ rest) = Some (VInt z, rest).
Proof.
  intros Hr. pose proof (closes_no_float rest Hr) as Hf.
  unfold str_of_int. destruct z as [|p|p].
  - change (NilZero.string_of_int (Z.to_int 0)) with "0".
    unfold match_number. rewrite append_cons.
    cbn [Ascii.eqb Bool.eqb snd fst scan_intpart].
    change (EmptyString +:+ rest) with rest. now rewrite Hf.
  - cbn [Z.to_int NilZero.string_of_int]. unfold match_number.
    pose proof (scan_intpart_pos p rest Hr) as Hs.
    pose proof (to_uint_head p) as Hh.
    assert (Hm : (match NilZero.string_of_uint (Pos.to_uint p) +:+ rest with
                  | String c r =>
                      if Ascii.eqb c "-" then (true, r)
                      else (false, NilZero.string_of_uint (Pos.to_uint p) +:+ rest)
                  | EmptyString => (false, NilZero.string_of_uint (Pos.to_uint p) +:+ rest)
                  end) = (false, NilZero.string_of_uint (Pos.to_uint p) +:+ rest)).
    { destruct (Pos.to_uint p); try contradiction; reflexivity. }
    rewrite Hm. cbn [snd fst]. rewrite Hs, Hf.
    do 3 f_equal. exact (DecimalZ.of_to (Z.pos p)).
  - cbn [Z.to_int NilZero.string_of_int]. unfold match_number.
    rewrite append_cons. cbn [Ascii.eqb Bool.eqb snd fst].
    rewrite (scan_intpart_pos p rest Hr), Hf.
    do 3 f_equal. exact (DecimalZ.of_to (Z.neg p)).
Qed.

(** ** Values of a JSON text *)

Lemma dumps_list_cons (x : value) (l : list value) :
  json_dumps (VList (x :: l)) = "[" +:+ json_dumps x +:+ array_tail l.
Proof. reflexivity. Qed.

Lemma dumps_dict_cons (kv : key * value) (d : pydict) :
  json_dumps (VDict (kv :: d))
  = "{" +:+ encode_basestring_ascii (json_key (fst kv)) +:+ ": " +:+
    json_dumps (snd kv) +:+ object_tail d.
Proof. reflexivity. Qed.

Lemma array_tail_cons (y : value) (l : list value) :
  array_tail (y :: l) = ", " +:+ json_dumps y +:+ array_tail l.
Proof. reflexivity. Qed.

Lemma object_tail_cons (kv : key * value) (d : pydict) :
  object_tail (kv :: d)
  = ", " +:+ encode_basestring_ascii (json_key (fst kv)) +:+ ": " +:+
    json_dumps (snd kv) +:+ object_tail d.
Proof. reflexivity. Qed.

Lemma str_of_int_head (z : Z) :
  exists c s, str_of_int z = String c s /\ (is_digit c || Ascii.eqb c "-") = true.
Proof.
  unfold str_of_int. destruct z as [|p|p].
  - now exists "0"%char, EmptyString.
  - cbn [Z.to_int NilZero.string_of_int]. pose proof (to_uint_head p) as Hh.
    destruct (Pos.to_uint p); try contradiction;
      cbn [NilZero.string_of_uint NilEmpty.string_of_uint]; eauto.
  - cbn [Z.to_int NilZero.string_of_int]. eauto.
Qed.

Lemma scan_once_number (n : nat) (c : ascii) (s : string) :
  (is_digit c || Ascii.eqb c "-") = true ->
  scan_once (S n) (String c s) = match_number (String c s).
Proof.
  destruct c as [[] [] [] [] [] [] [] []]; try discriminate; reflexivity.
Qed.

Lemma dumps_starts_value (v : value) (rest : string) :
  starts_value (json_dumps v +:+ rest) = true.
Proof.
  destruct v as [|[]|z|s|[|x l]|[|kv d]]; try reflexivity.
  destruct (str_of_int_head z) as (c & s & E & Hc). cbn [json_dumps].
  rewrite E, append_cons. cbn [starts_value].
  destruct c as [[] [] [] [] [] [] [] []]; try discriminate; reflexivity.
Qed.

Lemma skip_ws_starts_value (s : string) :
  starts_value s = true -> skip_ws s = s.
Proof.
  destruct s as [|c r]; [discriminate|]. cbn [starts_value skip_ws].
  now destruct (is_ws c).
Qed.

Lemma skip_ws_dumps (v : value) (rest : string) :
  skip_ws (json_dumps v +:+ rest) = json_dumps v +:+ rest.
Proof. apply skip_ws_starts_value, dumps_starts_value. Qed.

Lemma JSONArray_items (scan : string -> option (value * string)) (fuel : nat) (s : string) :
  starts_value s = true ->
  JSONArray scan fuel s
  = match array_items scan fuel s with
    | Some (vs, r) => Some (VList vs, r)
    | None => None
    end.
Proof.
  intros Hs. unfold JSONArray. rewrite skip_ws_starts_value by exact Hs.
  destruct s as [|c r]; [discriminate|]. cbn [starts_value] in Hs.
  apply andb_prop in Hs as [_ Hs]. apply negb_true_iff in Hs. now rewrite Hs.
Qed.

Lemma closes_array_tail (l : list value) (rest : string) :
  closes (array_tail l +:+ rest) = true.
Proof. now destruct l. Qed.

Lemma closes_object_tail (d : pydict) (rest : string) :
  closes (object_tail d +:+ rest) = true.
Proof. now destruct d. Qed.

Lemma array_items_dumps (scan : string -> option (value * string))
    (l : list value) (x : value) (fuel : nat) (rest : string) :
  Forall (fun y => forall r, closes r = true -> scan (json_dumps y +:+ r) = Some (y, r))
         (x :: l) ->
  (List.length l < fuel)%nat ->
  array_items scan fuel (json_dumps x +:+ array_tail l +:+ rest) = Some (x :: l, rest).
Proof.
  revert x fuel. induction l as [|y l IH]; intros x fuel Hall Hfuel;
    (destruct fuel as [|fuel]; [simpl in Hfuel; lia|]);
    inversion Hall as [|? ? Hx Hl]; subst; cbn [array_items].
  - rewrite Hx by reflexivity. reflexivity.
  - rewrite Hx by apply closes_array_tail.
    rewrite array_tail_cons, !append_assoc.
    change (", " +:+ ?t) with (String "," (String " " t)).
    cbn [skip_ws is_ws Ascii.eqb Bool.eqb orb]. rewrite skip_ws_dumps.
    rewrite IH; [reflexivity | exact Hl | simpl in Hfuel; lia].
Qed.

Lemma object_pairs_dumps (scan : string -> option (value * string))
    (d : pydict) (s : string) (v : value) (fuel : nat) (rest : string) :
  str_keys d ->
  Forall (fun kv => forall r, closes r = true ->
                    scan (json_dumps (snd kv) +:+ r) = Some (snd kv, r))
         ((KStr s, v) :: d) ->
  (List.length d < fuel)%nat ->
  object_pairs scan fuel
    (escape_body s +:+ String quote (": " +:+ json_dumps v +:+ object_tail d +:+ rest))
  = Some ((KStr s, v) :: d, rest).
Proof.
  revert s v fuel. induction d as [|[k y] d IH]; intros s v fuel Hk Hall Hfuel;
    (destruct fuel as [|fuel]; [simpl in Hfuel; lia|]);
    inversion Hall as [|? ? Hv Hd]; subst; cbn [snd] in Hv;
    cbn [object_pairs]; rewrite scanstring_escape_body;
    change (": " +:+ ?t) with (String ":" (String " " t));
    cbn [skip_ws is_ws Ascii.eqb Bool.eqb orb negb]; rewrite skip_ws_dumps.
  - rewrite Hv by reflexivity. reflexivity.
  - rewrite Hv by apply closes_object_tail.
    inversion Hk as [|? ? Hk1 Hk2]; subst. destruct k as [t| | |]; try discriminate.
    rewrite object_tail_cons. cbn [fst snd json_key].
    rewrite encode_basestring_ascii_app, !append_assoc.
    change (", " +:+ ?t) with (String "," (String " " t)).
    cbn [skip_ws is_ws Ascii.eqb Bool.eqb orb negb quote].
    rewrite append_cons, !append_assoc, append_cons, !append_assoc.
    change (skip_ws (String quote ?t)) with (String quote t).
    cbv beta iota. change (negb (Ascii.eqb quote quote)) with false. cbv iota.
    rewrite IH; [reflexivity | exact Hk2 | exact Hd | simpl in Hfuel; lia].
Qed.

Lemma list_sum_in {A : Type} (f : A -> nat) (x : A) (l : list A) :
  In x l -> (f x <= list_sum (map f l))%nat.
Proof.
  induction l as [|y l IH]; intros Hin; [contradiction|].
  destruct Hin as [->|Hin]; simpl; [lia|]. apply IH in Hin. lia.
Qed.

(** The scanner reads the text of a tree back: the tree, and the text that
    follows it.  The keys of the tree are strings, no two the same in one
    dict. *)
Lemma scan_once_dumps (v : value) :
  all_keys_str v = true -> collision_free v = true ->
  forall (n : nat) (rest : string),
    (need v <= n)%nat -> closes rest = true ->
    scan_once n (json_dumps v +:+ rest) = Some (v, rest).
Proof.
  induction v as [|b|z|s|l IH|d IH] using value_tree_ind;
    intros Hs Hc n rest Hn Hr;
    (destruct n as [|n]; [simpl in Hn; lia|]).
  - reflexivity.
  - now destruct b.
  - destruct (str_of_int_head z) as (c & s & E & Hd). cbn [json_dumps].
    rewrite E, append_cons, scan_once_number by exact Hd.
    rewrite <- append_cons, <- E. now apply match_number_int.
  - cbn [json_dumps]. rewrite encode_basestring_ascii_app. cbn [scan_once].
    change (Ascii.eqb quote quote) with true. cbv iota.
    now rewrite scanstring_escape_body.
  - destruct l as [|x l]; [reflexivity|].
    rewrite dumps_list_cons, !append_assoc.
    change ("[" +:+ ?t) with (String "[" t).
    change (scan_once (S n) (String "[" ?t)) with (JSONArray (scan_once n) n t).
    rewrite JSONArray_items by apply dumps_starts_value.
    cbn [need] in Hn. cbn [all_keys_str collision_free] in Hs, Hc.
    rewrite forallb_forall in Hs, Hc. rewrite List.Forall_forall in IH.
    rewrite array_items_dumps; [reflexivity | | simpl in Hn; lia].
    apply List.Forall_forall. intros y Hin r Hcl.
    apply IH; auto.
    pose proof (list_sum_in need y (x :: l) Hin). lia.
  - destruct d as [|[k v] d]; [reflexivity|].
    pose proof Hs as Hs'. apply all_keys_str_dict in Hs' as [Hk Hv].
    cbn [collision_free] in Hc. apply andb_prop in Hc as [Hdist Hc].
    rewrite forallb_forall in Hc. rewrite List.Forall_forall in IH, Hv.
    inversion Hk as [|? ? Hk1 Hk2]; subst. destruct k as [s| | |]; try discriminate.
    rewrite dumps_dict_cons. cbn [fst snd json_key].
    rewrite !append_assoc, encode_basestring_ascii_app.
    change ("{" +:+ ?t) with (String "{" t).
    change (scan_once (S n) (String "{" ?t)) with (JSONObject (scan_once n) n t).
    unfold JSONObject. change (skip_ws (String quote ?t)) with (String quote t).
    cbv beta iota. change (Ascii.eqb quote "}") with false.
    change (Ascii.eqb quote quote) with true. cbv iota.
    cbn [need] in Hn.
    rewrite object_pairs_dumps; [| exact Hk2 | | simpl in Hn; lia].
    + now rewrite dict_of_items_distinct.
    + apply List.Forall_forall. intros kv Hin r Hcl.
      apply IH; auto.
      pose proof (list_sum_in (fun kv => need (snd kv)) kv _ Hin). simpl in *. lia.
Qed.

Lemma need_array_tail (l : list value) :
  Forall (fun y => (need y <= String.length (json_dumps y))%nat) l ->
  (List.length l + list_sum (map need l) + 1 <= String.length (array_tail l))%nat.
Proof.
  induction l as [|y l IH]; intros Hall; [simpl; lia|].
  inversion Hall as [|? ? Hy Hl]; subst. apply IH in Hl.
  rewrite array_tail_cons, !length_append. simpl in *. lia.
Qed.

Lemma need_object_tail (d : pydict) :
  Forall (fun kv => (need (snd kv) <= String.length (json_dumps (snd kv)))%nat) d ->
  (List.length d + list_sum (map (fun kv => need (snd kv)) d) + 1
   <= String.length (object_tail d))%nat.
Proof.
  induction d as [|kv d IH]; intros Hall; [simpl; lia|].
  inversion Hall as [|? ? Hy Hl]; subst. apply IH in Hl.
  rewrite object_tail_cons, !length_append. simpl in *. lia.
Qed.

Lemma need_le_length (v : value) : (need v <= String.length (json_dumps v))%nat.
Proof.
  induction v as [|b|z|s|l IH|d IH] using value_tree_ind.
  - simpl. lia.
  - destruct b; simpl; lia.
  - destruct (str_of_int_head z) as (c & s & E & _). cbn [json_dumps need].
    rewrite E. simpl. lia.
  - simpl. lia.
  - destruct l as [|x l]; [simpl; lia|].
    inversion IH as [|? ? Hx Hl]; subst. apply need_array_tail in Hl.
    rewrite dumps_list_cons, !length_append. simpl in *. lia.
  - destruct d as [|kv d]; [simpl; lia|].
    inversion IH as [|? ? Hx Hl]; subst. apply need_object_tail in Hl.
    rewrite dumps_dict_cons, !length_append. simpl in *. lia.
Qed.

(** [json.loads] of the text [json.dumps] wrote, on texts. *)
Lemma decode_dumps (v : value) :
  all_keys_str v = true -> collision_free v = true ->
  decode (json_dumps v) = Some v.
Proof.
  intros Hs Hc. unfold decode.
  rewrite <- (append_nil_r (json_dumps v)) at 2.
  rewrite skip_ws_dumps.
  rewrite (scan_once_dumps v Hs Hc); [reflexivity | | reflexivity].
  pose proof (need_le_length v). lia.
Qed.

(** ** The text of [json.dumps] is ASCII, and its bytes are the text *)

Lemma printable_app (a b : string) :
  printable (a +:+ b) = printable a && printable b.
Proof.
  induction a as [|c a IH]; [reflexivity|].
  rewrite append_cons. cbn [printable]. rewrite IH. now rewrite andb_assoc.
Qed.

Lemma printable_escape_char (c : ascii) : printable (escape_char c) = true.
Proof. destruct c as [[] [] [] [] [] [] [] []]; reflexivity. Qed.

Lemma printable_encode_basestring_ascii (s : string) :
  printable (encode_basestring_ascii s) = true.
Proof.
  unfold encode_basestring_ascii.
  change (printable (String quote ?t)) with (printable t).
  rewrite printable_app. change (printable (String quote EmptyString)) with true.
  rewrite andb_true_r.
  induction s as [|c s IH]; [reflexivity|].
  cbn [escape_body]. now rewrite printable_app, printable_escape_char, IH.
Qed.

Lemma printable_str_of_int (z : Z) : printable (str_of_int z) = true.
Proof.
  assert (Hu : forall u, printable (NilEmpty.string_of_uint u) = true).
  { induction u; cbn [NilEmpty.string_of_uint printable]; trivial; now rewrite IHu. }
  assert (Hn : forall u, printable (NilZero.string_of_uint u) = true).
  { intros u. destruct u; try apply Hu. reflexivity. }
  unfold str_of_int. destruct (Z.to_int z); cbn [NilZero.string_of_int printable].
  - apply Hn.
  - now rewrite Hn.
Qed.

Lemma printable_dumps (v : value) : printable (json_dumps v) = true.
Proof.
  induction v as [|b|z|s|l IH|d IH] using value_tree_ind.
  - reflexivity.
  - now destruct b.
  - apply printable_str_of_int.
  - apply printable_encode_basestring_ascii.
  - destruct l as [|x l]; [reflexivity|].
    inversion IH as [|? ? Hx Hl]; subst.
    rewrite dumps_list_cons, !printable_app, Hx.
    change (printable "[") with true. cbn [andb].
    clear Hx IH. induction l as [|y l IHl]; [reflexivity|].
    inversion Hl as [|? ? Hy Hl']; subst.
    rewrite array_tail_cons, !printable_app, Hy.
    change (printable ", ") with true. cbn [andb]. now apply IHl.
  - destruct d as [|kv d]; [reflexivity|].
    inversion IH as [|? ? Hx Hl]; subst.
    rewrite dumps_dict_cons, !printable_app, Hx, printable_encode_basestring_ascii.
    change (printable "{") with true. change (printable ": ") with true. cbn [andb].
    clear Hx IH. induction d as [|y d IHd]; [reflexivity|].
    inversion Hl as [|? ? Hy Hl']; subst.
    rewrite object_tail_cons, !printable_app, Hy, printable_encode_basestring_ascii.
    change (printable ", ") with true. change (printable ": ") with true.
    cbn [andb]. now apply IHd.
Qed.

Lemma str_encode_printable (s : string) : printable s = true -> str_encode s = s.
Proof.
  induction s as [|c s IH]; [reflexivity|]. cbn [printable str_encode].
  intros H. apply andb_prop in H as [H Hs]. apply andb_prop in H as [_ H].
  apply N.leb_le in H.
  destruct (N.ltb_spec (ord c) 128) as [_|Hge]; [|lia]. now rewrite IH.
Qed.

Lemma utf8_decode_printable (s : string) : printable s = true -> utf8_decode s = Some s.
Proof.
  induction s as [|c s IH]; [reflexivity|]. cbn [printable utf8_decode].
  intros H. apply andb_prop in H as [H Hs]. apply andb_prop in H as [_ H].
  apply N.leb_le in H.
  destruct (N.ltb_spec (ord c) 128) as [_|Hge]; [|lia]. now rewrite IH.
Qed.

Lemma byte_is_printable (n : N) (c : ascii) (r : string) :
  printable (String c r) = true -> (n < 32 \/ 126 < n)%N -> byte_is n c = false.
Proof.
  cbn [printable]. intros H Hn. apply andb_prop in H as [H _].
  apply andb_prop in H as [H1 H2]. apply N.leb_le in H1, H2.
  unfold byte_is. apply N.eqb_neq. lia.
Qed.

Lemma printable_tail (c : ascii) (r : string) :
  printable (String c r) = true -> printable r = true.
Proof. cbn [printable]. intros H. now apply andb_prop in H as [_ H]. Qed.

Lemma detect_encoding_printable (s : string) :
  printable s = true -> detect_encoding s = UTF8.
Proof.
  intros H. destruct s as [|b0 [|b1 r]]; try reflexivity.
  pose proof (printable_tail _ _ H) as H1.
  cbn [detect_encoding].
  rewrite (byte_is_printable 254 b0 _ H), (byte_is_printable 255 b0 _ H),
    (byte_is_printable 0 b0 _ H), (byte_is_printable 239 b0 _ H),
    (byte_is_printable 0 b1 _ H1) by lia.
  cbn [andb orb]. now destruct r as [|b2 [|b3 r]].
Qed.

(** [json.loads] reads back the bytes of [json.dumps(...).encode()]. *)
Lemma loads_dumps (v : value) :
  all_keys_str v = true -> collision_free v = true ->
  json_loads (Some (str_encode (json_dumps v))) = Ok v.
Proof.
  intros Hs Hc. unfold json_loads.
  rewrite str_encode_printable by apply printable_dumps.
  rewrite detect_encoding_printable by apply printable_dumps.
  rewrite utf8_decode_printable by apply printable_dumps.
  now rewrite decode_dumps.
Qed.

(** ** The result of key coercion is a dict of distinct string keys *)

Lemma dict_set_key_strs (s : string) (v : value) (d : pydict) :
  str_keys d ->
  map (fun kv => str_of_key (fst kv)) (dict_set (KStr s) v d)
  = if fresh s d then map (fun kv => str_of_key (fst kv)) d ++ [s]
    else map (fun kv => str_of_key (fst kv)) d.
Proof.
  unfold fresh. induction d as [|[k x] d IH]; intros Hk; [reflexivity|].
  inversion Hk as [|? ? Hk1 Hk2]; subst. destruct k as [t| | |]; try discriminate.
  cbn [dict_set key_eqb map existsb fst str_of_key].
  rewrite (String.eqb_sym s t). destruct (String.eqb t s); [reflexivity|].
  cbn [map fst str_of_key orb]. rewrite IH by exact Hk2.
  now destruct (existsb (String.eqb s) (map (fun kv => str_of_key (fst kv)) d)).
Qed.

Lemma distinct_snoc (s : string) (l : list string) :
  distinct l = true -> existsb (String.eqb s) l = false -> distinct (l ++ [s]) = true.
Proof.
  induction l as [|t l IH]; intros Hd Hs; [reflexivity|].
  cbn [distinct existsb app] in *.
  apply andb_prop in Hd as [Ht Hd]. apply orb_false_elim in Hs as [Hst Hs].
  rewrite existsb_app, negb_orb, Ht, IH by assumption.
  cbn [existsb]. now rewrite String.eqb_sym, Hst.
Qed.

Lemma fold_dict_set_keys_distinct (items acc : pydict) :
  str_keys items -> str_keys acc ->
  distinct (map (fun kv => str_of_key (fst kv)) acc) = true ->
  distinct (map (fun kv => str_of_key (fst kv))
              (fold_left (fun d kv => dict_set (fst kv) (snd kv) d) items acc)) = true.
Proof.
  revert acc. induction items as [|[k v] items IH]; intros acc Hi Ha Hd; [exact Hd|].
  inversion Hi as [|? ? Hi1 Hi2]; subst. destruct k as [s| | |]; try discriminate.
  cbn [fold_left fst snd]. apply IH; trivial.
  - now apply dict_set_str_keys.
  - rewrite dict_set_key_strs by exact Ha. unfold fresh.
    destruct (existsb (String.eqb s) (map (fun kv => str_of_key (fst kv)) acc)) eqn:E;
      [exact Hd | now apply distinct_snoc].
Qed.

Lemma convert_result_collision_free (data : value) :
  collision_free (fst (_convert_key_to_str data)) = true.
Proof.
  induction data as [| | | |l IH|d IH] using value_tree_ind; try reflexivity.
  - simpl. rewrite forallb_forall. intros x Hin.
    apply in_map_iff in Hin as [y [<- Hin]].
    apply in_map_iff in Hin as [z [<- Hin]].
    rewrite List.Forall_forall in IH. now apply IH.
  - rewrite convert_dict_items. cbn [collision_free]. apply andb_true_intro. split.
    + apply fold_dict_set_keys_distinct;
        [apply coerced_items_str_keys | constructor | reflexivity].
    + apply forallb_forall. apply List.Forall_forall.
      apply (fold_dict_set_invariant (fun v => collision_free v = true));
        [apply coerced_items_str_keys | | constructor | constructor].
      apply List.Forall_forall. intros kv Hin.
      apply in_map_iff in Hin as [y [<- Hin]]. cbn [snd].
      rewrite List.Forall_forall in IH. now apply IH.
Qed.




(** ** Paths *)
















(** ** The methods of [JSONCollection] *)

Lemma sys_run {A : Type} (c : syscall)
    (step : gmap path node -> result A * gmap path node) (w : world) :
  sys c step w = (fst (step (disk w)), record_call c (snd (step (disk w))) w).
Proof. reflexivity. Qed.

Lemma bind_run {A B : Type} (m : Py A) (k : A -> Py B) (w : world) :
  (m ≫= k) w = match m w with
               | (Ok a, w') => k a w'
               | (Raise e, w') => (Raise e, w')
               end.
Proof. reflexivity. Qed.

(** *** Calls that leave the objects alone *)

Lemma keeps_bind {A B : Type} (m : Py A) (k : A -> Py B) :
  keeps_objects m -> (forall a, keeps_objects (k a)) -> keeps_objects (m ≫= k).
Proof.
  intros Hm Hk w. rewrite bind_run. specialize (Hm w).
  destruct (m w) as [[a|e] w']; cbn [snd] in *; [|exact Hm].
  now rewrite Hk.
Qed.

Lemma keeps_ret {A : Type} (a : A) : keeps_objects (mret a).
Proof. now intros w. Qed.

Lemma keeps_raise {A : Type} (e : exn) : keeps_objects (@raise A e).
Proof. now intros w. Qed.

Lemma keeps_gets {A : Type} (f : world -> A) : keeps_objects (gets f).
Proof. now intros w. Qed.

Lemma keeps_lift {A : Type} (r : result A) : keeps_objects (lift r).
Proof. now intros w. Qed.

Lemma keeps_getattr (self : loc) : keeps_objects (getattr self).
Proof. intros w. unfold getattr. now destruct (objects w !! self). Qed.

Lemma keeps_sys {A : Type} (c : syscall)
    (step : gmap path node -> result A * gmap path node) : keeps_objects (sys c step).
Proof. now intros w. Qed.

Lemma keeps_try {A : Type} (m : Py A) (h : exn -> Py A) :
  keeps_objects m -> (forall e, keeps_objects (h e)) -> keeps_objects (try_except m h).
Proof.
  intros Hm Hh w. unfold try_except. specialize (Hm w).
  destruct (m w) as [[a|e] w']; cbn [snd] in *; [exact Hm|].
  now rewrite Hh.
Qed.

Lemma keeps_store_to_buffer (fp : bytes -> bytes) (fn : option path) (blob : pyblob)
    (h : bool) : keeps_objects (_store_to_buffer fp fn blob h).
Proof.
  unfold _store_to_buffer. apply keeps_bind; [now intros w|]. intros _.
  destruct h; [|apply keeps_ret]. destruct blob; [now intros w|apply keeps_raise].
Qed.

Lemma keeps_load_from_file (self : loc) :
  keeps_objects (JSONCollection._load_from_file self).
Proof.
  unfold JSONCollection._load_from_file.
  apply keeps_bind; [apply keeps_getattr|]. intros o. apply keeps_try.
  - destruct (_filename o); [|apply keeps_raise].
    apply keeps_bind; [apply keeps_sys|]. intros b. apply keeps_ret.
  - intros [e| | |]; try apply keeps_raise.
    destruct (e =? ENOENT); apply keeps_ret.
Qed.

Lemma keeps_load (fp : bytes -> bytes) (self : loc) :
  keeps_objects (JSONCollection._load fp self).
Proof.
  unfold JSONCollection._load.
  apply keeps_bind; [apply keeps_gets|]. intros g.
  apply keeps_bind; [apply keeps_getattr|]. intros o.
  apply keeps_bind; [|intros blob; apply keeps_lift].
  destruct (g || negb (_buffered o =? 0)); [|apply keeps_load_from_file].
  apply keeps_bind; [apply keeps_gets|]. intros cache.
  destruct (cache !! _filename o); [apply keeps_ret|].
  apply keeps_bind; [apply keeps_load_from_file|]. intros blob.
  apply keeps_bind; [apply keeps_store_to_buffer|]. intros _. apply keeps_ret.
Qed.

Lemma keeps_write_to_file (tok : string) (fn : option path) (blob : bytes) (wc : bool) :
  keeps_objects (JSONCollection._write_to_file tok fn blob wc).
Proof.
  unfold JSONCollection._write_to_file.
  destruct wc, fn; try apply keeps_raise;
    repeat (apply keeps_bind; [apply keeps_sys|intros _]); apply keeps_sys.
Qed.

Lemma keeps_sync (fp : bytes -> bytes) (tok : string) (self : loc) :
  keeps_objects (JSONCollection._sync fp tok self).
Proof.
  unfold JSONCollection._sync, to_base.
  apply keeps_bind.
  { apply keeps_bind; [apply keeps_getattr|]. intros o. apply keeps_ret. }
  intros data. apply keeps_bind; [now intros w|]. intros _.
  apply keeps_bind; [apply keeps_gets|]. intros g.
  apply keeps_bind; [apply keeps_getattr|]. intros o.
  destruct (g || (0 <? _buffered o));
    [apply keeps_store_to_buffer | apply keeps_write_to_file].
Qed.

Lemma loads_sync_blob (data : value) :
  json_loads (Some (sync_blob data)) = Ok (fst (_convert_key_to_str data)).
Proof.
  apply loads_dumps; [apply convert_all_keys_str | apply convert_result_collision_free].
Qed.

Section Runs.
Context (realpath : path -> path) (fingerprint : bytes -> bytes).

Abbreviation _load := (JSONCollection._load fingerprint).
Abbreviation _sync := (JSONCollection._sync fingerprint).
Abbreviation _load_from_file := JSONCollection._load_from_file.
Abbreviation _write_to_file := JSONCollection._write_to_file.

Lemma load_from_file_run (self : loc) (w : world) (o : instance) (f : path) :
  objects w !! self = Some o -> _filename o = Some f ->
  _load_from_file self w
  = (match disk w !! f with
     | Some (File b) => Ok (Some b)
     | Some (Fault e) =>
         if e =? ENOENT then Ok (Some (str_encode (json_dumps VNone))) else Ok None
     | None => Ok (Some (str_encode (json_dumps VNone)))
     end, record_call (OpenRead f) (disk w) w).
Proof.
  intros Ho Hf.
  unfold JSONCollection._load_from_file, getattr, try_except, open_read.
  rewrite bind_run, Ho, Hf, bind_run, sys_run.
  destruct (disk w !! f) as [[b|e]|]; cbn [fst snd]; try reflexivity.
  now destruct (e =? ENOENT).
Qed.

Lemma load_unbuffered (self : loc) (w : world) (o : instance) :
  objects w !! self = Some o -> buffered_for_load w o = false ->
  _load self w
  = match _load_from_file self w with
    | (Ok blob, w') => (json_loads blob, w')
    | (Raise e, w') => (Raise e, w')
    end.
Proof.
  intros Ho Hb. unfold JSONCollection._load, _in_buffered_mode, gets, getattr, lift.
  rewrite !bind_run, Ho. unfold buffered_for_load in Hb. rewrite Hb.
  rewrite bind_run. now destruct (_load_from_file self w) as [[blob|e] w'].
Qed.

Lemma load_cached (self : loc) (w : world) (o : instance) (blob : pyblob) :
  objects w !! self = Some o -> buffered_for_load w o = true ->
  _cache w !! _filename o = Some blob ->
  _load self w = (json_loads blob, w).
Proof.
  intros Ho Hb Hc. unfold JSONCollection._load, _in_buffered_mode, gets, getattr, lift.
  rewrite !bind_run, Ho. unfold buffered_for_load in Hb. rewrite Hb.
  rewrite !bind_run, Hc. reflexivity.
Qed.

Lemma load_primes (self : loc) (w w1 : world) (o : instance) (b : bytes) :
  objects w !! self = Some o -> buffered_for_load w o = true ->
  _cache w !! _filename o = None ->
  _load_from_file self w = (Ok (Some b), w1) ->
  _load self w
  = (json_loads (Some b),
     set_hashes (fun h => <[_filename o := fingerprint b]> h)
       (set_cache (fun c => <[_filename o := Some b]> c) w1)).
Proof.
  intros Ho Hb Hc Hl. unfold JSONCollection._load, _in_buffered_mode, gets, getattr, lift.
  rewrite !bind_run, Ho. unfold buffered_for_load in Hb. rewrite Hb.
  rewrite !bind_run, Hc, bind_run, Hl. reflexivity.
Qed.

Lemma write_durable_run (tok : string) (f : path) (blob : bytes) (w : world) :
  _write_to_file tok (Some f) blob true w
  = match disk w !! tmp_path tok f with
    | Some (Fault e) =>
        (Raise (IOError e), record_call (OpenWrite (tmp_path tok f)) (disk w) w)
    | _ =>
        let d1 := <[tmp_path tok f := File EmptyString]> (disk w) in
        let d2 := <[tmp_path tok f := File blob]> d1 in
        let d3 := <[f := File blob]> (delete (tmp_path tok f) d2) in
        (Ok tt,
         record_call (Replace (tmp_path tok f) f) d3
           (record_call (Write (tmp_path tok f) blob) d2
              (record_call (OpenWrite (tmp_path tok f)) d1 w)))
    end.
Proof.
  unfold JSONCollection._write_to_file.
  change (os_path_join _ _) with (tmp_path tok f).
  unfold open_write, file_write, os_replace. rewrite bind_run, sys_run.
  destruct (disk w !! tmp_path tok f) as [[b|e]|] eqn:E; cbn [fst snd];
    try reflexivity;
    rewrite bind_run, sys_run; cbn [fst snd]; rewrite sys_run;
    cbn [record_call set_syscalls set_disk disk];
    rewrite lookup_insert_eq; reflexivity.
Qed.

Lemma write_fast_run (tok : string) (f : path) (blob : bytes) (w : world) :
  _write_to_file tok (Some f) blob false w
  = match disk w !! f with
    | Some (Fault e) => (Raise (IOError e), record_call (OpenWrite f) (disk w) w)
    | _ =>
        let d1 := <[f := File EmptyString]> (disk w) in
        (Ok tt,
         record_call (Write f blob) (<[f := File blob]> d1)
           (record_call (OpenWrite f) d1 w))
    end.
Proof.
  unfold JSONCollection._write_to_file, open_write, file_write.
  rewrite bind_run, sys_run.
  destruct (disk w !! f) as [[b|e]|] eqn:E; cbn [fst snd]; try reflexivity;
    rewrite sys_run; reflexivity.
Qed.

Lemma sync_run (tok : string) (self : loc) (w : world) (o : instance) :
  objects w !! self = Some o ->
  _sync tok self w
  = let w1 := set_warned (fun l => l ++ snd (_convert_key_to_str (_data o))) w in
    if buffered_for_sync w o then
      (Ok tt, set_cache (fun c => <[_filename o := Some (sync_blob (_data o))]> c) w1)
    else
      _write_to_file tok (_filename o) (sync_blob (_data o)) (_write_concern o) w1.
Proof.
  intros Ho.
  unfold JSONCollection._sync, to_base, getattr, warn_all, modify, _in_buffered_mode, gets.
  rewrite !bind_run, Ho. cbn [mret Py_ret]. rewrite !bind_run.
  cbn [set_warned objects _buffered_scopes]. rewrite Ho.
  unfold buffered_for_sync.
  destruct ((0 <? _buffered_scopes w) || (0 <? _buffered o)); reflexivity.
Qed.

Lemma write_to_file_frame (tok : string) (fn : option path) (blob : bytes)
    (wc : bool) (w : world) :
  _cache (snd (_write_to_file tok fn blob wc w)) = _cache w /\
  _hashes (snd (_write_to_file tok fn blob wc w)) = _hashes w /\
  objects (snd (_write_to_file tok fn blob wc w)) = objects w /\
  (forall f, fn = Some f -> fst (_write_to_file tok fn blob wc w) = Ok tt ->
             disk (snd (_write_to_file tok fn blob wc w)) !! f = Some (File blob)).
Proof.
  destruct fn as [f|]; [|destruct wc; repeat split; discriminate].
  destruct wc.
  - rewrite write_durable_run.
    destruct (disk w !! tmp_path tok f) as [[b|e]|]; repeat split;
      try discriminate; intros g [= <-] _; cbn; apply lookup_insert_eq.
  - rewrite write_fast_run.
    destruct (disk w !! f) as [[b|e]|]; repeat split;
      try discriminate; intros g [= <-] _; cbn; apply lookup_insert_eq.
Qed.

(** C1, as the code has it.  When reading the backing file fails with an
    I/O error other than [ENOENT], the handler of [_load_from_file] comes to
    its end: the error is not raised again, and the call returns [None].
    Outside buffered mode [_load] then raises the [TypeError] of
    [json.loads(None)], not the I/O error. *)
Theorem load_from_file_swallows_io_error
    (self : loc) (w : world) (o : instance) (f : path) (e : errno) :
  objects w !! self = Some o -> _filename o = Some f ->
  disk w !! f = Some (Fault e) -> e <> ENOENT ->
  fst (_load_from_file self w) = Ok None /\
  (buffered_for_load w o = false -> fst (_load self w) = Raise TypeError).
Proof.
  intros Ho Hf Hd He.
  assert (Hl : _load_from_file self w = (Ok None, record_call (OpenRead f) (disk w) w)).
  { rewrite (load_from_file_run self w o f Ho Hf), Hd.
    apply Z.eqb_neq in He. now rewrite He. }
  split; [now rewrite Hl|].
  intros Hb. now rewrite (load_unbuffered self w o Ho Hb), Hl.
Qed.

(** C4.  When the backing file does not exist, [_load_from_file] returns
    the bytes of a JSON null, and [_load], which calls it outside buffered
    mode and in buffered mode when the buffer has no entry for the file,
    returns the null document; neither raises. *)
Theorem load_missing_file (self : loc) (w : world) (o : instance) (f : path) :
  objects w !! self = Some o -> _filename o = Some f -> disk w !! f = None ->
  fst (_load_from_file self w) = Ok (Some "null") /\
  (buffered_for_load w o = false \/ _cache w !! Some f = None ->
   fst (_load self w) = Ok VNone).
Proof.
  intros Ho Hf Hd.
  assert (Hl : _load_from_file self w
               = (Ok (Some "null"), record_call (OpenRead f) (disk w) w)).
  { now rewrite (load_from_file_run self w o f Ho Hf), Hd. }
  split; [now rewrite Hl|].
  intros Hc. destruct (buffered_for_load w o) eqn:Hb.
  - destruct Hc as [Hc|Hc]; [discriminate|].
    rewrite <- Hf in Hc. now rewrite (load_primes self w _ o "null" Ho Hb Hc Hl).
  - now rewrite (load_unbuffered self w o Ho Hb), Hl.
Qed.


Lemma load_miss_world (self : loc) (w : world) (o : instance) (f : path) :
  objects w !! self = Some o -> _filename o = Some f ->
  buffered_for_load w o = true -> _cache w !! Some f = None ->
  syscalls (snd (_load self w)) = syscalls w ++ [(OpenRead f, disk w)] /\
  disk (snd (_load self w)) = disk w.
Proof.
  intros Ho Hf Hb Hc.
  pose proof (load_from_file_run self w o f Ho Hf) as Hl.
  unfold JSONCollection._load, _in_buffered_mode, gets, getattr, lift.
  rewrite !bind_run, Ho. unfold buffered_for_load in Hb. rewrite Hb.
  rewrite !bind_run, Hf, Hc, bind_run, Hl.
  destruct (disk w !! f) as [[b|e]|]; [| destruct (e =? ENOENT) |]; now split.
Qed.

(** C6.  In buffered mode, a [_load] that finds a buffer entry for the file
    name deserializes the buffered bytes and leaves the world as it is: no
    system call.  A [_load] that finds none reads the file, once; when the
    read gives bytes (the file is there, or is missing), it stores them in
    the buffer with their fingerprint, whatever the deserialization of the
    bytes gives, and a [_load] that follows makes no system call. *)
Theorem load_buffered (self : loc) (w : world) (o : instance) (f : path) :
  objects w !! self = Some o -> _filename o = Some f ->
  buffered_for_load w o = true ->
  (forall blob, _cache w !! Some f = Some blob -> _load self w = (json_loads blob, w)) /\
  (_cache w !! Some f = None ->
   syscalls (snd (_load self w)) = syscalls w ++ [(OpenRead f, disk w)] /\
   disk (snd (_load self w)) = disk w) /\
  (forall b, _cache w !! Some f = None ->
     disk w !! f = Some (File b) \/ (disk w !! f = None /\ b = "null") ->
     let w' := snd (_load self w) in
     fst (_load self w) = json_loads (Some b) /\
     _cache w' = <[Some f := Some b]> (_cache w) /\
     _hashes w' = <[Some f := fingerprint b]> (_hashes w) /\
     _load self w' = (json_loads (Some b), w')).
Proof.
  intros Ho Hf Hb. split; [|split].
  - intros blob Hc. rewrite <- Hf in Hc. now apply (load_cached self w o).
  - intros Hc. now apply (load_miss_world self w o f).
  - intros b Hc Hd w'.
    assert (Hl : _load_from_file self w
                 = (Ok (Some b), record_call (OpenRead f) (disk w) w)).
    { rewrite (load_from_file_run self w o f Ho Hf).
      destruct Hd as [Hd|[Hd ->]]; now rewrite Hd. }
    rewrite <- Hf in Hc.
    pose proof (load_primes self w _ o b Ho Hb Hc Hl) as Hp.
    subst w'. rewrite Hp, Hf. cbn [fst snd]. repeat split.
    apply (load_cached self _ o).
    + exact Ho.
    + exact Hb.
    + rewrite Hf. cbn. apply lookup_insert_eq.
Qed.


Lemma run_validators_rejects (vs : list (value -> bool)) (data : value) (w : world) :
  existsb (fun v => negb (v data)) vs = true ->
  JSONCollection.run_validators vs data w = (Raise FormatError, w).
Proof.
  induction vs as [|v vs IH]; [discriminate|]. cbn [existsb JSONCollection.run_validators].
  destruct (v data); [exact IH | reflexivity].
Qed.

Lemma sync_rejected (tok : string) (self : loc) (w : world) (o : instance) :
  objects w !! self = Some o ->
  existsb (fun v => negb (v (_data o))) (_validators w) = true ->
  JSONCollection.sync fingerprint tok self w = (Raise FormatError, w).
Proof.
  intros Ho Hv. unfold JSONCollection.sync, to_base, getattr, gets.
  rewrite !bind_run, Ho. cbn [mret Py_ret]. rewrite !bind_run.
  now rewrite run_validators_rejects.
Qed.

(** C8.  When a registered validator rejects the [to_base()] output, [sync]
    raises the format error and the world is as before: no file of the disk
    and no buffer entry is changed.  A mutation that triggers such a sync
    ends with the format error, the disk and the buffer as before the
    mutation, and the mutated tree in memory. *)
Theorem sync_validation_failure
    (tok : string) (self : loc) (update : value -> value) (w : world) (o : instance) :
  objects w !! self = Some o ->
  (existsb (fun v => negb (v (_data o))) (_validators w) = true ->
   JSONCollection.sync fingerprint tok self w = (Raise FormatError, w)) /\
  (existsb (fun v => negb (v (update (_data o)))) (_validators w) = true ->
   let out := JSONCollection.mutate fingerprint tok self update w in
   fst out = Raise FormatError /\
   disk (snd out) = disk w /\ _cache (snd out) = _cache w /\
   _hashes (snd out) = _hashes w /\ syscalls (snd out) = syscalls w /\
   _data <$> (objects (snd out) !! self) = Some (update (_data o))).
Proof.
  intros Ho. split; [now apply sync_rejected|].
  intros Hv out. subst out. unfold JSONCollection.mutate, modify. rewrite bind_run.
  erewrite sync_rejected.
  - cbn [fst snd set_objects disk _cache _hashes syscalls objects].
    repeat split. now rewrite lookup_alter_eq, Ho.
  - cbn [set_objects objects]. now rewrite lookup_alter_eq, Ho.
  - exact Hv.
Qed.

(** C9.  [__init__] stores the canonical form of the file name it is given.
    Two instances made on paths with the same canonical form have the same
    [_filename]; in buffered mode the [_sync] of the one stores its bytes
    under that key, and the [_load] of the other reads them from there.  No
    [_load] and no [_sync] changes an object of the heap, so no [_filename]
    changes. *)
Theorem filename_is_canonical_key
    (a b : loc) (p1 p2 : path) (wc1 wc2 : bool) (d1 d2 : value) (tok : string)
    (w : world) :
  a <> b -> realpath p1 = realpath p2 ->
  let w2 := snd (JSONCollection.__init__ realpath b (Some p2) wc2 d2
                   (snd (JSONCollection.__init__ realpath a (Some p1) wc1 d1 w))) in
  _filename <$> (objects w2 !! a) = Some (Some (realpath p1)) /\
  _filename <$> (objects w2 !! b) = Some (Some (realpath p1)) /\
  (0 < _buffered_scopes w ->
   let w3 := snd (_sync tok a w2) in
   _cache w3 = <[Some (realpath p1) := Some (sync_blob d1)]> (_cache w) /\
   _load b w3 = (Ok (fst (_convert_key_to_str d1)), w3)) /\
  (forall self w', objects (snd (_load self w')) = objects w') /\
  (forall self w', objects (snd (_sync tok self w')) = objects w').
Proof.
  intros Hab Hp w2.
  assert (Ha : objects w2 !! a
               = Some (Instance (Some (realpath p1)) wc1 (Some p1) d1 0 true)).
  { subst w2. cbn. now rewrite lookup_insert_ne, lookup_insert_eq by congruence. }
  assert (Hb : objects w2 !! b
               = Some (Instance (Some (realpath p1)) wc2 (Some p2) d2 0 true)).
  { subst w2. cbn. now rewrite lookup_insert_eq, Hp. }
  split; [now rewrite Ha|]. split; [now rewrite Hb|].
  split; [|split; [intros self w'; apply keeps_load | intros self w'; apply keeps_sync]].
  intros Hg w3.
  assert (Hs : buffered_for_sync w2 (Instance (Some (realpath p1)) wc1 (Some p1) d1 0 true)
               = true).
  { unfold buffered_for_sync. subst w2. cbn. apply Z.ltb_lt in Hg. now rewrite Hg. }
  pose proof (sync_run tok a w2 _ Ha) as Hrun. cbv zeta in Hrun.
  rewrite Hs in Hrun. cbn [_filename _data] in Hrun.
  subst w3. rewrite Hrun. cbn [snd]. split; [reflexivity|].
  erewrite load_cached.
  - f_equal. apply loads_sync_blob.
  - cbn [set_cache set_warned objects]. exact Hb.
  - unfold buffered_for_load. cbn. apply Z.ltb_lt in Hg. now rewrite Hg.
  - cbn. apply lookup_insert_eq.
Qed.
(** X1.  Outside buffered mode, a [_load] after a [_sync] that returned
    gives the tree of the [_sync], with its keys coerced: the round trip
    through the file, in both write modes. *)
Lemma round_trip_through_disk (tok : string) (self : loc) (w : world) (o : instance)
    (f : path) :
  objects w !! self = Some o -> _filename o = Some f ->
  buffered_for_sync w o = false -> buffered_for_load w o = false ->
  fst (_sync tok self w) = Ok tt ->
  fst (_load self (snd (_sync tok self w))) = Ok (fst (_convert_key_to_str (_data o))).
Proof.
  intros Ho Hf Hs Hl Hok.
  set (w1 := set_warned (fun l => l ++ snd (_convert_key_to_str (_data o))) w).
  assert (Hrun : _sync tok self w
                 = _write_to_file tok (Some f) (sync_blob (_data o)) (_write_concern o) w1).
  { rewrite (sync_run tok self w o Ho). cbv zeta. now rewrite Hs, Hf. }
  rewrite Hrun in *.
  destruct (write_to_file_frame tok (Some f) (sync_blob (_data o)) (_write_concern o) w1)
    as (_ & _ & Hobj & Hdisk).
  specialize (Hdisk f eq_refl Hok).
  assert (Hscopes : _buffered_scopes
                      (snd (_write_to_file tok (Some f) (sync_blob (_data o))
                              (_write_concern o) w1)) = _buffered_scopes w).
  { destruct (_write_concern o).
    - rewrite write_durable_run.
      now destruct (disk w1 !! tmp_path tok f) as [[b|e]|].
    - rewrite write_fast_run. now destruct (disk w1 !! f) as [[b|e]|]. }
  set (w2 := snd (_write_to_file tok (Some f) (sync_blob (_data o)) (_write_concern o) w1))
    in *.
  assert (Ho2 : objects w2 !! self = Some o) by (rewrite Hobj; exact Ho).
  assert (Hl2 : buffered_for_load w2 o = false).
  { unfold buffered_for_load in *. now rewrite Hscopes. }
  rewrite (load_unbuffered self w2 o Ho2 Hl2), (load_from_file_run self w2 o f Ho2 Hf), Hdisk.
  cbn [fst]. apply loads_sync_blob.
Qed.
End Runs.

(** ** The theorems at sample worlds *)

Lemma load_from_file_swallows_io_error_witness :
  fst (JSONCollection._load_from_file 0%nat
         (sample_world {[ doc := Fault EACCES ]} 0 [])) = Ok None /\
  fst (JSONCollection._load (fun b => b) 0%nat
         (sample_world {[ doc := Fault EACCES ]} 0 [])) = Raise TypeError.
Proof.
  assert (Hd : disk (sample_world {[ doc := Fault EACCES ]} 0 []) !! doc
               = Some (Fault EACCES)) by (vm_compute; reflexivity).
  assert (He : EACCES <> ENOENT) by discriminate.
  destruct (load_from_file_swallows_io_error (fun b => b) 0%nat
              (sample_world {[ doc := Fault EACCES ]} 0 []) sample_object doc EACCES
              eq_refl eq_refl Hd He) as [H1 H2].
  split; [exact H1 | exact (H2 eq_refl)].
Defined.

Lemma load_missing_file_witness :
  fst (JSONCollection._load_from_file 0%nat (sample_world ∅ 0 [])) = Ok (Some "null") /\
  fst (JSONCollection._load (fun b => b) 0%nat (sample_world ∅ 0 [])) = Ok VNone /\
  fst (JSONCollection._load (fun b => b) 0%nat (sample_world ∅ 1 [])) = Ok VNone.
Proof.
  assert (Hd0 : disk (sample_world ∅ 0 []) !! doc = None) by evaluated.
  assert (Hd1 : disk (sample_world ∅ 1 []) !! doc = None) by evaluated.
  assert (Hc1 : _cache (sample_world ∅ 1 []) !! Some doc = None) by evaluated.
  destruct (load_missing_file (fun b => b) 0%nat (sample_world ∅ 0 []) sample_object doc
              eq_refl eq_refl Hd0) as [H1 H2].
  destruct (load_missing_file (fun b => b) 0%nat (sample_world ∅ 1 []) sample_object doc
              eq_refl eq_refl Hd1) as [_ H3].
  split; [exact H1|].
  split; [exact (H2 (or_introl eq_refl)) | exact (H3 (or_intror Hc1))].
Defined.



Lemma load_buffered_witness :
  JSONCollection._load (fun b => b) 0%nat
    (snd (JSONCollection._load (fun b => b) 0%nat
            (sample_world {[ doc := File "[1]" ]} 1 [])))
  = (json_loads (Some "[1]"),
     snd (JSONCollection._load (fun b => b) 0%nat
            (sample_world {[ doc := File "[1]" ]} 1 []))).
Proof.
  assert (Hd : disk (sample_world {[ doc := File "[1]" ]} 1 []) !! doc
               = Some (File "[1]")) by (vm_compute; reflexivity).
  destruct (load_buffered (fun b => b) 0%nat (sample_world {[ doc := File "[1]" ]} 1 [])
              sample_object doc eq_refl eq_refl eq_refl) as [_ H].
  assert (Hc : _cache (sample_world {[ doc := File "[1]" ]} 1 []) !! Some doc = None)
    by evaluated.
  destruct H as [_ H].
  destruct (H "[1]" Hc (or_introl Hd)) as (_ & _ & _ & H6).
  exact H6.
Defined.

Lemma sync_validation_failure_witness :
  JSONCollection.sync (fun b => b) sample_token 0%nat
    (sample_world {[ doc := File "[]" ]} 0 [fun _ => true; fun _ => false])
  = (Raise FormatError,
     sample_world {[ doc := File "[]" ]} 0 [fun _ => true; fun _ => false]).
Proof.
  destruct (sync_validation_failure (fun b => b) sample_token 0%nat (fun v => v)
              (sample_world {[ doc := File "[]" ]} 0 [fun _ => true; fun _ => false])
              sample_object eq_refl) as [H _].
  exact (H eq_refl).
Defined.

Lemma filename_is_canonical_key_witness :
  _filename <$> (objects (two_instances (sample_world ∅ 1 [])) !! 1%nat)
  = Some (Some doc) /\
  _filename <$> (objects (two_instances (sample_world ∅ 1 [])) !! 2%nat)
  = Some (Some doc) /\
  fst (JSONCollection._load (fun b => b) 2%nat
         (snd (JSONCollection._sync (fun b => b) sample_token 1%nat
                 (two_instances (sample_world ∅ 1 [])))))
  = Ok (fst (_convert_key_to_str sample_tree)).
Proof.
  assert (Hab : 1%nat <> 2%nat) by discriminate.
  assert (Hg : 0 < _buffered_scopes (sample_world ∅ 1 [])) by reflexivity.
  destruct (filename_is_canonical_key resolve_link (fun b => b) 1%nat 2%nat
              doc "/link/doc.json" true false sample_tree VNone sample_token
              (sample_world ∅ 1 []) Hab eq_refl) as (H1 & H2 & H3 & _).
  destruct (H3 Hg) as [_ H4].
  split; [exact H1|]. split; [exact H2|].
  exact (f_equal fst H4).
Defined.

(** * Further properties of the code *)

(** ** Key coercion *)

(** X2.  Key coercion is idempotent: applied to its own result,
    [_convert_key_to_str] returns that result and emits no warning. *)
Theorem convert_key_to_str_idempotent (data : value) :
  _convert_key_to_str (fst (_convert_key_to_str data))
  = (fst (_convert_key_to_str data), []).
Proof.
  rewrite (surjective_pairing (_convert_key_to_str (fst (_convert_key_to_str data)))).
  rewrite convert_warnings, convert_collision_free
    by apply convert_result_collision_free.
  now rewrite keys_replaced_str_keys, deprecations_str_keys
    by apply convert_all_keys_str.
Qed.

Lemma dict_set_length (k : key) (v : value) (d : pydict) :
  (List.length d <= List.length (dict_set k v d) <= S (List.length d))%nat.
Proof.
  induction d as [|[k' x] d IH]; simpl; [lia|].
  destruct (key_eqb k' k); simpl; lia.
Qed.

Lemma fold_dict_set_length (items acc : pydict) :
  (List.length acc
   <= List.length (fold_left (fun d kv => dict_set (fst kv) (snd kv) d) items acc)
   <= List.length acc + List.length items)%nat.
Proof.
  revert acc. induction items as [|kv items IH]; intros acc; simpl; [lia|].
  specialize (IH (dict_set (fst kv) (snd kv) acc)).
  pose proof (dict_set_length (fst kv) (snd kv) acc). lia.
Qed.

Lemma dict_get_str_in (s : string) (d : pydict) :
  str_keys d ->
  (is_Some (dict_get (KStr s) d) <-> exists v, In (KStr s, v) d).
Proof.
  induction d as [|[k x] d IH]; intros Hk.
  - simpl. split; [intros [? [=]] | intros [? []]].
  - inversion Hk as [|? ? Hk1 Hk2]; subst. destruct k as [t| | |]; try discriminate.
    cbn [dict_get key_eqb]. destruct (String.eqb_spec t s) as [->|Hne].
    + split; [intros _; exists x; now left | intros _; now exists x].
    + rewrite (IH Hk2). split; intros [v Hv]; exists v.
      * now right.
      * destruct Hv as [[= ? ?]|Hv]; [congruence | exact Hv].
Qed.

(** X3.  The dict that key coercion returns for a dict has no more items
    than the input; its keys are strings, no two the same; and they are the
    string forms of the keys of the input: each key of the input is found in
    the result under [str(key)], and each key of the result is the string
    form of a key of the input. *)
Theorem convert_dict_keys (d : pydict) :
  exists d',
    fst (_convert_key_to_str (VDict d)) = VDict d' /\
    (List.length d' <= List.length d)%nat /\
    distinct (map (fun kv => str_of_key (fst kv)) d') = true /\
    (forall k v, In (k, v) d -> is_Some (dict_get (KStr (str_of_key k)) d')) /\
    (forall s, is_Some (dict_get (KStr s) d') ->
               exists k v, In (k, v) d /\ str_of_key k = s).
Proof.
  exists (dict_of_items (coerced_items d)).
  split; [apply convert_dict_items|].
  split.
  { pose proof (fold_dict_set_length (coerced_items d) []) as H.
    unfold dict_of_items, coerced_items in *. rewrite length_map in H. simpl in H. lia. }
  split.
  { apply fold_dict_set_keys_distinct;
      [apply coerced_items_str_keys | constructor | reflexivity]. }
  assert (Hrev : forall s, is_Some (dict_get (KStr s) (dict_of_items (coerced_items d)))
                           <-> exists v, In (KStr s, v) (coerced_items d)).
  { intros s. rewrite convert_later_item_wins. rewrite dict_get_str_in.
    - split; intros [v Hv]; exists v; [now apply in_rev | now apply in_rev in Hv].
    - apply List.Forall_forall. intros kv Hin. apply in_rev in Hin.
      pose proof (coerced_items_str_keys d) as Hk. unfold str_keys in Hk.
      rewrite List.Forall_forall in Hk. now apply Hk. }
  split.
  - intros k v Hin. apply Hrev. exists (fst (_convert_key_to_str v)).
    unfold coerced_items. apply in_map_iff. now exists (k, v).
  - intros s Hs. apply Hrev in Hs as [v Hv]. unfold coerced_items in Hv.
    apply in_map_iff in Hv as [[k x] [[= Hk _] Hin]]. now exists k, x.
Qed.

(** ** Calls that only read, calls that never read *)

Lemma only_bind {A B : Type} (P : syscall -> bool) (m : Py A) (k : A -> Py B) :
  only_calls P m -> (forall a, only_calls P (k a)) -> only_calls P (m ≫= k).
Proof.
  intros Hm Hk w. rewrite bind_run. destruct (Hm w) as (c1 & E1 & F1).
  destruct (m w) as [[a|e] w']; cbn [snd] in *; [|now exists c1].
  destruct (Hk a w') as (c2 & E2 & F2). exists (c1 ++ c2). split.
  - now rewrite E2, E1, app_assoc.
  - now apply Forall_app.
Qed.

Lemma only_pure {A : Type} (P : syscall -> bool) (m : Py A) :
  (forall w, syscalls (snd (m w)) = syscalls w) -> only_calls P m.
Proof. intros H w. exists []. now rewrite app_nil_r. Qed.

Lemma only_sys {A : Type} (P : syscall -> bool) (c : syscall)
    (step : gmap path node -> result A * gmap path node) :
  P c = true -> only_calls P (sys c step).
Proof. intros Hc w. eexists [_]. split; [reflexivity|]. now repeat constructor. Qed.

Lemma only_try {A : Type} (P : syscall -> bool) (m : Py A) (h : exn -> Py A) :
  only_calls P m -> (forall e, only_calls P (h e)) -> only_calls P (try_except m h).
Proof.
  intros Hm Hh w. unfold try_except. destruct (Hm w) as (c1 & E1 & F1).
  destruct (m w) as [[a|e] w']; cbn [snd] in *; [now exists c1|].
  destruct (Hh e w') as (c2 & E2 & F2). exists (c1 ++ c2). split.
  - now rewrite E2, E1, app_assoc.
  - now apply Forall_app.
Qed.

Lemma only_getattr (P : syscall -> bool) (self : loc) : only_calls P (getattr self).
Proof. apply only_pure. intros w. unfold getattr. now destruct (objects w !! self). Qed.

Lemma only_store_to_buffer (P : syscall -> bool) (fp : bytes -> bytes)
    (fn : option path) (blob : pyblob) (h : bool) :
  only_calls P (_store_to_buffer fp fn blob h).
Proof.
  apply only_pure. intros w. unfold _store_to_buffer. rewrite bind_run. cbn.
  destruct h; [|reflexivity]. now destruct blob.
Qed.

Lemma only_load_from_file (self : loc) :
  only_calls is_read (JSONCollection._load_from_file self).
Proof.
  unfold JSONCollection._load_from_file.
  apply only_bind; [apply only_getattr|]. intros o. apply only_try.
  - destruct (_filename o); [|now apply only_pure].
    apply only_bind; [now apply only_sys|]. intros b. now apply only_pure.
  - intros [e| | |]; try now apply only_pure.
    destruct (e =? ENOENT); now apply only_pure.
Qed.

Lemma only_load (fp : bytes -> bytes) (self : loc) :
  only_calls is_read (JSONCollection._load fp self).
Proof.
  unfold JSONCollection._load.
  apply only_bind; [now apply only_pure|]. intros g.
  apply only_bind; [apply only_getattr|]. intros o.
  apply only_bind; [|intros blob; now apply only_pure].
  destruct (g || negb (_buffered o =? 0)); [|apply only_load_from_file].
  apply only_bind; [now apply only_pure|]. intros cache.
  destruct (cache !! _filename o); [now apply only_pure|].
  apply only_bind; [apply only_load_from_file|]. intros blob.
  apply only_bind; [apply only_store_to_buffer|]. intros _. now apply only_pure.
Qed.

Lemma only_write_to_file (tok : string) (fn : option path) (blob : bytes) (wc : bool) :
  only_calls (fun c => negb (is_read c)) (JSONCollection._write_to_file tok fn blob wc).
Proof.
  unfold JSONCollection._write_to_file.
  destruct wc, fn; try (now apply only_pure);
    repeat (apply only_bind; [now apply only_sys|intros _]); now apply only_sys.
Qed.

Lemma only_sync (fp : bytes -> bytes) (tok : string) (self : loc) :
  only_calls (fun c => negb (is_read c)) (JSONCollection._sync fp tok self).
Proof.
  unfold JSONCollection._sync, to_base.
  apply only_bind.
  { apply only_bind; [apply only_getattr|]. intros o. now apply only_pure. }
  intros data. apply only_bind; [now apply only_pure|]. intros _.
  apply only_bind; [now apply only_pure|]. intros g.
  apply only_bind; [apply only_getattr|]. intros o.
  destruct (g || (0 <? _buffered o));
    [apply only_store_to_buffer | apply only_write_to_file].
Qed.

Lemma keeps_disk_bind {A B : Type} (m : Py A) (k : A -> Py B) :
  keeps_disk m -> (forall a, keeps_disk (k a)) -> keeps_disk (m ≫= k).
Proof.
  intros Hm Hk w. rewrite bind_run. specialize (Hm w).
  destruct (m w) as [[a|e] w']; cbn [snd] in *; [|exact Hm].
  now rewrite Hk.
Qed.

Lemma keeps_disk_load_from_file (self : loc) :
  keeps_disk (JSONCollection._load_from_file self).
Proof.
  intros w. unfold JSONCollection._load_from_file, getattr, try_except, open_read.
  rewrite bind_run. destruct (objects w !! self) as [o|]; [|reflexivity].
  destruct (_filename o) as [f|]; [|reflexivity].
  rewrite bind_run, sys_run.
  destruct (disk w !! f) as [[b|e]|]; cbn [fst snd]; try reflexivity.
  now destruct (e =? ENOENT).
Qed.

Lemma keeps_disk_load (fp : bytes -> bytes) (self : loc) :
  keeps_disk (JSONCollection._load fp self).
Proof.
  unfold JSONCollection._load.
  apply keeps_disk_bind; [now intros w|]. intros g.
  apply keeps_disk_bind; [intros w; unfold getattr; now destruct (objects w !! self)|].
  intros o. apply keeps_disk_bind; [|now intros blob w].
  destruct (g || negb (_buffered o =? 0)); [|apply keeps_disk_load_from_file].
  apply keeps_disk_bind; [now intros w|]. intros cache.
  destruct (cache !! _filename o); [now intros w|].
  apply keeps_disk_bind; [apply keeps_disk_load_from_file|]. intros blob.
  apply keeps_disk_bind; [|now intros _ w].
  intros w. unfold _store_to_buffer. rewrite bind_run. cbn.
  now destruct blob.
Qed.

(** X10.  [_load] only reads: whatever the world, the instance and the
    mode, it leaves every file of the disk as it is, and each system call it
    makes opens a file for reading.  [_sync] never reads: none of its system
    calls opens a file for reading, so what it writes does not depend on
    what the file holds. *)
Theorem load_reads_sync_writes
    (fp : bytes -> bytes) (tok : string) (self : loc) (w : world) :
  disk (snd (JSONCollection._load fp self w)) = disk w /\
  (exists calls,
     syscalls (snd (JSONCollection._load fp self w)) = syscalls w ++ calls /\
     Forall (fun cd => is_read (fst cd) = true) calls) /\
  (exists calls,
     syscalls (snd (JSONCollection._sync fp tok self w)) = syscalls w ++ calls /\
     Forall (fun cd => is_read (fst cd) = false) calls).
Proof.
  split; [apply keeps_disk_load|]. split; [apply only_load|].
  destruct (only_sync fp tok self w) as (calls & E & F). exists calls.
  split; [exact E|]. eapply Forall_impl; [exact F|].
  intros cd H. now apply negb_true_iff.
Qed.

(** ** Writing through *)

Section MoreRuns.
Context (realpath : path -> path) (fingerprint : bytes -> bytes).

Abbreviation _load := (JSONCollection._load fingerprint).
Abbreviation _sync := (JSONCollection._sync fingerprint).
Abbreviation _load_from_file := JSONCollection._load_from_file.
Abbreviation _write_to_file := JSONCollection._write_to_file.

(** X4.  Without [write_concern], [_write_to_file] opens the target
    itself: it makes two system calls on the target, and between them the
    target is an empty file, whatever it held before and whatever the blob
    is.  After the second the target holds the blob. *)
Theorem write_fast_truncates_target (tok : string) (f : path) (blob : bytes) (w : world) :
  (forall e, disk w !! f <> Some (Fault e)) ->
  let out := _write_to_file tok (Some f) blob false w in
  fst out = Ok tt /\
  exists d1 d2,
    syscalls (snd out) = syscalls w ++ [(OpenWrite f, d1); (Write f blob, d2)] /\
    d1 !! f = Some (File EmptyString) /\
    d2 !! f = Some (File blob) /\
    disk (snd out) = d2.
Proof.
  intros Hf out. subst out. rewrite write_fast_run.
  destruct (disk w !! f) as [[b|e]|] eqn:E; [|now destruct (Hf e)|];
    (split; [reflexivity|];
     exists (<[f := File EmptyString]> (disk w)),
            (<[f := File blob]> (<[f := File EmptyString]> (disk w)));
     split; [cbn [record_call set_syscalls set_disk syscalls snd];
             now rewrite <- app_assoc|];
     split; [apply lookup_insert_eq|]; split; [apply lookup_insert_eq|reflexivity]).
Qed.

(** X5.  [_write_to_file] touches two paths at most: in either mode,
    whether it returns or raises, every path other than the target and the
    temporary file holds what it held before. *)
Theorem write_to_file_other_paths
    (tok : string) (f : path) (blob : bytes) (wc : bool) (w : world) (p : path) :
  p <> f -> p <> tmp_path tok f ->
  disk (snd (_write_to_file tok (Some f) blob wc w)) !! p = disk w !! p.
Proof.
  intros Hf Ht. destruct wc.
  - rewrite write_durable_run.
    destruct (disk w !! tmp_path tok f) as [[b|e]|]; cbn [snd record_call set_syscalls
      set_disk disk]; try reflexivity;
      now rewrite lookup_insert_ne, lookup_delete_ne, !lookup_insert_ne by congruence.
  - rewrite write_fast_run.
    destruct (disk w !! f) as [[b|e]|]; cbn [snd record_call set_syscalls set_disk disk];
      try reflexivity; now rewrite !lookup_insert_ne by congruence.
Qed.

(** X6.  An I/O error of the [open] for writing is not caught: outside
    buffered mode [_sync] raises it as it is, with the disk and the buffer
    as before.  The path opened is the temporary file with [write_concern],
    the target without. *)
Theorem sync_write_error_propagates
    (tok : string) (self : loc) (w : world) (o : instance) (f : path) (e : errno) :
  objects w !! self = Some o -> _filename o = Some f ->
  buffered_for_sync w o = false ->
  disk w !! (if _write_concern o then tmp_path tok f else f) = Some (Fault e) ->
  fst (_sync tok self w) = Raise (IOError e) /\
  disk (snd (_sync tok self w)) = disk w /\
  _cache (snd (_sync tok self w)) = _cache w.
Proof.
  intros Ho Hf Hb Hd. rewrite (sync_run fingerprint tok self w o Ho). cbv zeta.
  rewrite Hb, Hf. destruct (_write_concern o).
  - rewrite write_durable_run. cbn [set_warned disk]. now rewrite Hd.
  - rewrite write_fast_run. cbn [set_warned disk]. now rewrite Hd.
Qed.

Lemma load_from_file_no_filename (self : loc) (w : world) (o : instance) :
  objects w !! self = Some o -> _filename o = None ->
  _load_from_file self w = (Raise TypeError, w).
Proof.
  intros Ho Hf. unfold JSONCollection._load_from_file, getattr, try_except.
  now rewrite bind_run, Ho, Hf.
Qed.

(** X7.  A collection made without a file name has [_filename] [None].
    Outside buffered mode its [_load] and its [_sync] raise a [TypeError]
    (the handler of [_load_from_file] catches I/O errors only) and make no
    system call. *)
Theorem no_filename_raises
    (tok : string) (self : loc) (wc : bool) (data : value) (w : world) :
  _buffered_scopes w <= 0 ->
  let w' := snd (JSONCollection.__init__ realpath self None wc data w) in
  _filename <$> (objects w' !! self) = Some None /\
  _load self w' = (Raise TypeError, w') /\
  fst (_sync tok self w') = Raise TypeError /\
  syscalls (snd (_sync tok self w')) = syscalls w /\
  disk (snd (_sync tok self w')) = disk w.
Proof.
  intros Hg w'.
  assert (Ho : objects w' !! self = Some (Instance None wc None data 0 true)).
  { subst w'. cbn. apply lookup_insert_eq. }
  assert (Hs : (0 <? _buffered_scopes w') = false).
  { subst w'. cbn. apply Z.ltb_ge. exact Hg. }
  split; [now rewrite Ho|]. split.
  - rewrite (load_unbuffered fingerprint self w' _ Ho);
      [|unfold buffered_for_load; now rewrite Hs].
    now rewrite (load_from_file_no_filename self w' _ Ho).
  - rewrite (sync_run fingerprint tok self w' _ Ho). cbv zeta.
    unfold buffered_for_sync. rewrite Hs. cbn [_buffered _filename _write_concern orb].
    change (0 <? 0) with false. cbv iota.
    destruct wc; repeat split.
Qed.

(** X8.  The bytes [_sync] writes are never empty, and each of them is a
    printable ASCII character: no line break, no control character, no byte
    above 126. *)
Theorem sync_blob_printable (data : value) :
  printable (sync_blob data) = true /\ (0 < String.length (sync_blob data))%nat.
Proof.
  unfold sync_blob. rewrite str_encode_printable by apply printable_dumps.
  split; [apply printable_dumps|].
  pose proof (need_le_length (fst (_convert_key_to_str data))) as H.
  assert (Hn : (1 <= need (fst (_convert_key_to_str data)))%nat)
    by (destruct (fst (_convert_key_to_str data)); simpl; lia).
  lia.
Qed.

Lemma blank_utf8_decode (b : bytes) : blank b = true -> utf8_decode b = Some b.
Proof.
  induction b as [|c b IH]; [reflexivity|]. cbn [blank]. intros Hb.
  apply andb_prop in Hb as [Hc Hb]. cbn [utf8_decode]. rewrite (IH Hb).
  destruct c as [[] [] [] [] [] [] [] []]; vm_compute in Hc; try discriminate;
    reflexivity.
Qed.

Lemma blank_skip_ws (b : bytes) : blank b = true -> skip_ws b = EmptyString.
Proof.
  induction b as [|c b IH]; [reflexivity|]. cbn [blank]. intros Hb.
  apply andb_prop in Hb as [Hc Hb]. cbn [skip_ws]. rewrite Hc. now apply IH.
Qed.

Lemma blank_byte_is (c : ascii) (r : string) (n : N) :
  blank (String c r) = true -> (n = 0 \/ 128 <= n)%N -> byte_is n c = false.
Proof.
  intros H Hn. cbn [blank] in H. apply andb_prop in H as [H _].
  unfold byte_is. apply N.eqb_neq.
  destruct c as [[] [] [] [] [] [] [] []]; vm_compute in H; try discriminate;
    cbn; lia.
Qed.

Lemma blank_detect_encoding (b : bytes) : blank b = true -> detect_encoding b = UTF8.
Proof.
  intros Hb. destruct b as [|b0 [|b1 r]]; try reflexivity.
  assert (H1 : blank (String b1 r) = true).
  { cbn [blank] in Hb. now apply andb_prop in Hb as [_ Hb]. }
  cbn [detect_encoding].
  rewrite (blank_byte_is b0 _ 254%N Hb), (blank_byte_is b0 _ 255%N Hb),
    (blank_byte_is b0 _ 0%N Hb), (blank_byte_is b0 _ 239%N Hb),
    (blank_byte_is b1 _ 0%N H1) by lia.
  cbn [andb orb]. now destruct r as [|b2 [|b3 r]].
Qed.

Lemma blank_decode (b : bytes) : blank b = true -> json_loads (Some b) = Raise ValueError.
Proof.
  intros Hb. unfold json_loads, decode.
  now rewrite blank_detect_encoding, blank_utf8_decode, blank_skip_ws.
Qed.

(** X9.  Outside buffered mode, [_load] of a file that exists and is
    empty, or holds JSON whitespace only, raises the [ValueError] of
    [json.loads]. *)
Theorem load_blank_file_raises
    (self : loc) (w : world) (o : instance) (f : path) (b : bytes) :
  objects w !! self = Some o -> _filename o = Some f ->
  buffered_for_load w o = false ->
  disk w !! f = Some (File b) -> blank b = true ->
  fst (_load self w) = Raise ValueError.
Proof.
  intros Ho Hf Hm Hd Hb.
  rewrite (load_unbuffered fingerprint self w o Ho Hm),
    (load_from_file_run self w o f Ho Hf), Hd.
  cbn [fst]. now apply blank_decode.
Qed.

(** X11.  In a buffered scope, the [_sync] calls of two collections on one
    file name go to one buffer entry and the later one wins: a [_load] of
    either collection that follows returns the tree of the later [_sync],
    with its keys coerced.  The three calls make no system call, and the
    disk is as before. *)
Theorem buffered_syncs_coalesce
    (tok1 tok2 : string) (a b : loc) (w : world) (oa ob : instance) (f : path) :
  objects w !! a = Some oa -> objects w !! b = Some ob ->
  _filename oa = Some f -> _filename ob = Some f ->
  0 < _buffered_scopes w ->
  let w2 := snd (_sync tok2 b (snd (_sync tok1 a w))) in
  fst (_load a w2) = Ok (fst (_convert_key_to_str (_data ob))) /\
  fst (_load b w2) = Ok (fst (_convert_key_to_str (_data ob))) /\
  syscalls (snd (_load a w2)) = syscalls w /\
  disk (snd (_load a w2)) = disk w.
Proof.
  intros Ha Hb Hfa Hfb Hg w2. apply Z.ltb_lt in Hg.
  assert (Hsa : buffered_for_sync w oa = true)
    by (unfold buffered_for_sync; now rewrite Hg).
  pose proof (sync_run fingerprint tok1 a w oa Ha) as R1. cbv zeta in R1.
  rewrite Hsa, Hfa in R1.
  set (w1 := snd (_sync tok1 a w)) in *.
  assert (Hb1 : objects w1 !! b = Some ob) by (subst w1; now rewrite R1).
  assert (Hg1 : (0 <? _buffered_scopes w1) = true) by (subst w1; now rewrite R1).
  pose proof (sync_run fingerprint tok2 b w1 ob Hb1) as R2. cbv zeta in R2.
  unfold buffered_for_sync in R2. rewrite Hg1, Hfb in R2. cbn [orb] in R2.
  assert (Hc2 : _cache w2 !! Some f = Some (Some (sync_blob (_data ob)))).
  { subst w2. rewrite R2. cbn. apply lookup_insert_eq. }
  assert (Ho2 : objects w2 = objects w) by (subst w2 w1; now rewrite R2, R1).
  assert (Hg2 : (0 <? _buffered_scopes w2) = true) by (subst w2; now rewrite R2).
  assert (Hs2 : syscalls w2 = syscalls w /\ disk w2 = disk w)
    by (subst w2 w1; now rewrite R2, R1).
  assert (La : _load a w2 = (json_loads (Some (sync_blob (_data ob))), w2)).
  { apply (load_cached fingerprint a w2 oa).
    - now rewrite Ho2.
    - unfold buffered_for_load. now rewrite Hg2.
    - now rewrite Hfa. }
  assert (Lb : _load b w2 = (json_loads (Some (sync_blob (_data ob))), w2)).
  { apply (load_cached fingerprint b w2 ob).
    - now rewrite Ho2.
    - unfold buffered_for_load. now rewrite Hg2.
    - now rewrite Hfb. }
  rewrite La, Lb. cbn [fst snd]. rewrite loads_sync_blob. now destruct Hs2.
Qed.
Lemma write_to_file_warned (tok : string) (fn : option path) (blob : bytes)
    (wc : bool) (w : world) :
  warned (snd (_write_to_file tok fn blob wc w)) = warned w.
Proof.
  destruct fn as [f|]; [|now destruct wc]. destruct wc.
  - rewrite write_durable_run. now destruct (disk w !! tmp_path tok f) as [[b|e]|].
  - rewrite write_fast_run. now destruct (disk w !! f) as [[b|e]|].
Qed.

(** X12.  Every [_sync] emits the deprecation warnings of its tree, one for
    each key that is not a string: in buffered mode and outside, and also
    when the write then raises. *)
Theorem sync_warns (tok : string) (self : loc) (w : world) (o : instance) :
  objects w !! self = Some o ->
  warned (snd (_sync tok self w)) = warned w ++ deprecations (_data o).
Proof.
  intros Ho. rewrite (sync_run fingerprint tok self w o Ho). cbv zeta.
  rewrite <- convert_warnings.
  destruct (buffered_for_sync w o); [reflexivity|].
  now rewrite write_to_file_warned.
Qed.
End MoreRuns.

(** ** The adapter registry *)

Section AdapterProps.
Context {obj pytype : Type} (type_str : pytype -> string)
  (isinstance : obj -> pytype -> bool)
  (construct : pytype -> obj -> Conversion.cresult obj).

Import Conversion.

Abbreviation klass := (Conversion.klass obj pytype).
Abbreviation cstate := (Conversion.cstate obj pytype).
Abbreviation make_adapter := (Conversion.make_adapter obj pytype type_str).
Abbreviation class_Adapter := (Conversion.class_Adapter obj pytype type_str).
Abbreviation call := (Conversion.call obj pytype isinstance construct).
Abbreviation identifier := (Conversion.identifier pytype type_str).
Abbreviation registry_of := (Conversion.registry_of obj pytype).
Abbreviation mro := (Conversion.mro obj pytype).
Abbreviation k_registry := (Conversion.k_registry obj pytype).
Abbreviation k_expects := (Conversion.k_expects obj pytype).
Abbreviation k_returns := (Conversion.k_returns obj pytype).
Abbreviation k_weight := (Conversion.k_weight obj pytype).
Abbreviation k_call := (Conversion.k_call obj pytype).
Abbreviation k_base := (Conversion.k_base obj pytype).
Abbreviation k_id := (Conversion.k_id obj pytype).

Abbreviation BasicAdapter := (Conversion.BasicAdapter obj pytype).

Lemma make_adapter_run (adapter : klass) (src dst : option pytype)
    (convert : option (obj -> cresult obj)) (w : option Z) (st : cstate)
    (r : nat) (reg : gmap string klass) :
  mro k_registry adapter = Some r -> registries _ _ st !! r = Some reg ->
  make_adapter adapter src dst convert w st
  = (Done (BasicAdapter adapter src dst convert w (next_id _ _ st)),
     CState _ _
       (<[r := <[identifier src dst
                 := BasicAdapter adapter src dst convert w (next_id _ _ st)]> reg]>
          (registries _ _ st))
       (S (next_id _ _ st))).
Proof.
  intros Hr Hreg. unfold Conversion.make_adapter, AdapterMetaType__init__.
  cbn. now rewrite Hr, Hreg.
Qed.

(** X13.  [make_adapter] returns a new subclass of [Adapter] and stores it
    in the registry of [Adapter] under ["<src>_to_<dst>"]: a lookup of that
    identifier finds the class, every other identifier is as before, and the
    class sees the same registry as its base.  The class expects [src] and
    returns [dst]; its weight is [w], and that of [Adapter] when [w] is
    [None]. *)
Theorem make_adapter_registers (adapter : klass) (src dst : option pytype)
    (convert : option (obj -> cresult obj)) (w : option Z) (st : cstate)
    (r : nat) (reg : gmap string klass) :
  mro k_registry adapter = Some r -> registries _ _ st !! r = Some reg ->
  exists cls reg',
    make_adapter adapter src dst convert w st
    = (Done cls, CState _ _ (<[r := reg']> (registries _ _ st)) (S (next_id _ _ st))) /\
    registry_of adapter (snd (make_adapter adapter src dst convert w st)) = Some reg' /\
    registry_of cls (snd (make_adapter adapter src dst convert w st)) = Some reg' /\
    reg' !! identifier src dst = Some cls /\
    (forall i, i <> identifier src dst -> reg' !! i = reg !! i) /\
    k_base cls = Some adapter /\
    mro k_expects cls = Some src /\ mro k_returns cls = Some dst /\
    mro k_weight cls = match w with Some z => Some z | None => mro k_weight adapter end.
Proof.
  intros Hr Hreg.
  exists (BasicAdapter adapter src dst convert w (next_id _ _ st)),
         (<[identifier src dst
            := BasicAdapter adapter src dst convert w (next_id _ _ st)]> reg).
  rewrite (make_adapter_run adapter src dst convert w st r reg Hr Hreg).
  split; [reflexivity|].
  assert (Hc : mro k_registry (BasicAdapter adapter src dst convert w (next_id _ _ st))
               = Some r) by (cbn; exact Hr).
  unfold Conversion.registry_of. rewrite Hr, Hc. cbn [snd registries].
  rewrite lookup_insert_eq.
  split; [reflexivity|]. split; [reflexivity|].
  split; [apply lookup_insert_eq|].
  split; [intros i Hi; now apply lookup_insert_ne|].
  repeat split.
Qed.

(** X14.  A second [make_adapter] for the same [src] and [dst] replaces the
    first in the registry: the identifier then names the second class, which
    is not the first, and the registry has as many entries as after the
    first call. *)
Theorem make_adapter_replaces (adapter : klass) (src dst : option pytype)
    (c1 c2 : option (obj -> cresult obj)) (w1 w2 : option Z) (st : cstate)
    (r : nat) (reg : gmap string klass) :
  mro k_registry adapter = Some r -> registries _ _ st !! r = Some reg ->
  let st1 := snd (make_adapter adapter src dst c1 w1 st) in
  let st2 := snd (make_adapter adapter src dst c2 w2 st1) in
  exists cls1 cls2 reg1 reg2,
    fst (make_adapter adapter src dst c1 w1 st) = Done cls1 /\
    fst (make_adapter adapter src dst c2 w2 st1) = Done cls2 /\
    registry_of adapter st1 = Some reg1 /\
    registry_of adapter st2 = Some reg2 /\
    reg2 !! identifier src dst = Some cls2 /\
    k_id cls2 = S (k_id cls1) /\
    size reg2 = size reg1 /\
    (forall i, i <> identifier src dst -> reg2 !! i = reg !! i).
Proof.
  intros Hr Hreg st1 st2.
  pose proof (make_adapter_run adapter src dst c1 w1 st r reg Hr Hreg) as R1.
  assert (Hreg1 : registries _ _ st1 !! r
                  = Some (<[identifier src dst
                            := BasicAdapter adapter src dst c1 w1 (next_id _ _ st)]> reg)).
  { subst st1. rewrite R1. cbn. apply lookup_insert_eq. }
  pose proof (make_adapter_run adapter src dst c2 w2 st1 r _ Hr Hreg1) as R2.
  assert (Hn : next_id _ _ st1 = S (next_id _ _ st)) by (subst st1; now rewrite R1).
  exists (BasicAdapter adapter src dst c1 w1 (next_id _ _ st)),
         (BasicAdapter adapter src dst c2 w2 (next_id _ _ st1)),
         (<[identifier src dst := BasicAdapter adapter src dst c1 w1 (next_id _ _ st)]> reg),
         (<[identifier src dst := BasicAdapter adapter src dst c2 w2 (next_id _ _ st1)]>
            (<[identifier src dst
               := BasicAdapter adapter src dst c1 w1 (next_id _ _ st)]> reg)).
  split; [now rewrite R1|]. split; [now rewrite R2|].
  unfold Conversion.registry_of. rewrite Hr.
  split; [exact Hreg1|].
  split; [subst st2; rewrite R2; cbn; apply lookup_insert_eq|].
  split; [apply lookup_insert_eq|].
  split; [cbn; exact Hn|].
  split.
  - rewrite insert_insert_eq.
    destruct (reg !! identifier src dst) as [c|] eqn:E.
    + rewrite !map_size_insert_Some; eauto.
    + now rewrite !map_size_insert_None.
  - intros i Hi. now rewrite !lookup_insert_ne.
Qed.

(** X15.  An adapter made with a [convert] function calls it on every
    argument: its [__call__] does not test the type of the argument.  An
    adapter made without one has the [__call__] of [Adapter]: it raises an
    [AssertionError] for an argument that is not an instance of [src], and
    returns [dst(x)] otherwise. *)
Theorem adapter_call (adapter : klass) (src dst : pytype) (w : option Z) (st : cstate)
    (r : nat) (reg : gmap string klass) :
  mro k_registry adapter = Some r -> registries _ _ st !! r = Some reg ->
  mro k_call adapter = Some (AdapterCall obj) ->
  (forall convert, exists cls,
     fst (make_adapter adapter (Some src) (Some dst) (Some convert) w st) = Done cls /\
     forall x, call cls x = convert x) /\
  (exists cls,
     fst (make_adapter adapter (Some src) (Some dst) None w st) = Done cls /\
     forall x, call cls x
               = if isinstance x src then construct dst x else Failed AssertionError).
Proof.
  intros Hr Hreg Hc. split.
  - intros convert. eexists.
    rewrite (make_adapter_run adapter _ _ _ w st r reg Hr Hreg). split; reflexivity.
  - eexists. rewrite (make_adapter_run adapter _ _ _ w st r reg Hr Hreg).
    split; [reflexivity|]. intros x. unfold Conversion.call. cbn. now rewrite Hc.
Qed.

(** X16.  The class statement of [Adapter] gives it a new, empty registry,
    in which [Adapter] itself is not stored, and the default weight.  An
    instance of [Adapter] cannot be called: [expects] is [None], and
    [isinstance] raises.  The first [make_adapter] then makes the registry
    a dict of one entry, and a class with the default weight when no weight
    is given. *)
Theorem adapter_base_class (st : cstate) :
  exists A,
    fst (class_Adapter st) = Done A /\
    registry_of A (snd (class_Adapter st)) = Some ∅ /\
    mro k_weight A = Some WEIGHT_DEFAULT /\
    (forall x, call A x = Failed NotAType) /\
    (forall src dst convert w,
       exists cls,
         fst (make_adapter A src dst convert w (snd (class_Adapter st))) = Done cls /\
         registry_of A (snd (make_adapter A src dst convert w (snd (class_Adapter st))))
         = Some {[ identifier src dst := cls ]} /\
         mro k_weight cls = Some (default WEIGHT_DEFAULT w)).
Proof.
  set (A := Klass obj pytype (next_id _ _ st) None (Some (S (next_id _ _ st)))
                  (Some None) (Some None) (Some WEIGHT_DEFAULT) (Some (AdapterCall obj))).
  exists A.
  assert (R : class_Adapter st
              = (Done A, CState _ _ (<[S (next_id _ _ st) := ∅]> (registries _ _ st))
                                (S (S (next_id _ _ st))))) by reflexivity.
  rewrite R. cbn [fst snd].
  assert (Hr : mro k_registry A = Some (S (next_id _ _ st))) by reflexivity.
  split; [reflexivity|].
  split; [unfold Conversion.registry_of; rewrite Hr; cbn; apply lookup_insert_eq|].
  split; [reflexivity|]. split; [reflexivity|].
  intros src dst convert w.
  eexists. erewrite make_adapter_run; [|exact Hr|cbn; apply lookup_insert_eq].
  split; [reflexivity|]. split.
  - unfold Conversion.registry_of. rewrite Hr. cbn. rewrite lookup_insert_eq.
    now rewrite insert_empty.
  - now destruct w.
Qed.
End AdapterProps.

(** ** The further properties at sample worlds *)

Lemma round_trip_through_disk_witness :
  fst (JSONCollection._load (fun b => b) 0%nat
         (snd (JSONCollection._sync (fun b => b) sample_token 0%nat (sample_world ∅ 0 []))))
  = Ok (fst (_convert_key_to_str sample_tree)).
Proof.
  assert (Hok : fst (JSONCollection._sync (fun b => b) sample_token 0%nat
                       (sample_world ∅ 0 [])) = Ok tt) by evaluated.
  exact (round_trip_through_disk (fun b => b) sample_token 0%nat (sample_world ∅ 0 [])
           sample_object doc eq_refl eq_refl eq_refl eq_refl Hok).
Defined.

Lemma write_fast_truncates_target_witness :
  fst (JSONCollection._write_to_file sample_token (Some doc) "[1]" false
         (sample_world {[ doc := File "[]" ]} 0 [])) = Ok tt.
Proof.
  assert (Hd : forall e, disk (sample_world {[ doc := File "[]" ]} 0 []) !! doc
                         <> Some (Fault e)).
  { intros e. assert (H : disk (sample_world {[ doc := File "[]" ]} 0 []) !! doc
                          = Some (File "[]")) by evaluated.
    rewrite H. discriminate. }
  exact (proj1 (write_fast_truncates_target sample_token doc "[1]"
                  (sample_world {[ doc := File "[]" ]} 0 []) Hd)).
Defined.

Lemma write_to_file_other_paths_witness :
  disk (snd (JSONCollection._write_to_file sample_token (Some doc) "[1]" true
               (sample_world {[ "/data/other.json" := File "{}" ]} 0 [])))
    !! "/data/other.json"
  = disk (sample_world {[ "/data/other.json" := File "{}" ]} 0 []) !! "/data/other.json".
Proof.
  assert (H1 : "/data/other.json" <> doc) by discriminate.
  assert (H2 : "/data/other.json" <> tmp_path sample_token doc) by discriminate.
  exact (write_to_file_other_paths sample_token doc "[1]" true
           (sample_world {[ "/data/other.json" := File "{}" ]} 0 [])
           "/data/other.json" H1 H2).
Defined.

Lemma sync_write_error_propagates_witness :
  fst (JSONCollection._sync (fun b => b) sample_token 0%nat
         (sample_world {[ tmp_path sample_token doc := Fault EACCES ]} 0 []))
  = Raise (IOError EACCES).
Proof.
  assert (Hd : disk (sample_world {[ tmp_path sample_token doc := Fault EACCES ]} 0 [])
               !! (if _write_concern sample_object then tmp_path sample_token doc else doc)
               = Some (Fault EACCES)) by evaluated.
  exact (proj1 (sync_write_error_propagates (fun b => b) sample_token 0%nat
                  (sample_world {[ tmp_path sample_token doc := Fault EACCES ]} 0 [])
                  sample_object doc EACCES eq_refl eq_refl eq_refl Hd)).
Defined.

Lemma no_filename_raises_witness :
  fst (JSONCollection._sync (fun b => b) sample_token 5%nat
         (snd (JSONCollection.__init__ (fun p => p) 5%nat None true VNone
                 (sample_world ∅ 0 [])))) = Raise TypeError.
Proof.
  assert (Hg : _buffered_scopes (sample_world ∅ 0 []) <= 0) by reflexivity.
  destruct (no_filename_raises (fun p => p) (fun b => b) sample_token 5%nat true VNone
              (sample_world ∅ 0 []) Hg) as (_ & _ & H & _).
  exact H.
Defined.

Lemma load_blank_file_raises_witness :
  fst (JSONCollection._load (fun b => b) 0%nat
         (sample_world {[ doc := File EmptyString ]} 0 [])) = Raise ValueError.
Proof.
  assert (Hd : disk (sample_world {[ doc := File EmptyString ]} 0 []) !! doc
               = Some (File EmptyString)) by evaluated.
  exact (load_blank_file_raises (fun b => b) 0%nat
           (sample_world {[ doc := File EmptyString ]} 0 []) sample_object doc EmptyString
           eq_refl eq_refl eq_refl Hd eq_refl).
Defined.

Lemma buffered_syncs_coalesce_witness :
  fst (JSONCollection._load (fun b => b) 1%nat
         (snd (JSONCollection._sync (fun b => b) sample_token 2%nat
                 (snd (JSONCollection._sync (fun b => b) sample_token 1%nat
                         (two_instances (sample_world ∅ 1 [])))))))
  = Ok VNone.
Proof.
  assert (Ha : objects (two_instances (sample_world ∅ 1 [])) !! 1%nat
               = Some (Instance (Some doc) true (Some doc) sample_tree 0 true))
    by evaluated.
  assert (Hb : objects (two_instances (sample_world ∅ 1 [])) !! 2%nat
               = Some (Instance (Some doc) false (Some "/link/doc.json") VNone 0 true))
    by evaluated.
  assert (Hg : 0 < _buffered_scopes (two_instances (sample_world ∅ 1 []))) by reflexivity.
  destruct (buffered_syncs_coalesce (fun b => b) sample_token sample_token 1%nat 2%nat
              (two_instances (sample_world ∅ 1 [])) _ _ doc Ha Hb eq_refl eq_refl Hg)
    as (H & _).
  exact H.
Defined.

Lemma sync_warns_witness :
  warned (snd (JSONCollection._sync (fun b => b) sample_token 0%nat (sample_world ∅ 1 [])))
  = [key_deprecated (KInt 2); key_deprecated KNone].
Proof.
  exact (sync_warns (fun b => b) sample_token 0%nat (sample_world ∅ 1 []) sample_object
           eq_refl).
Defined.

Example class_Adapter_first :
  Conversion.class_Adapter value string sample_type_str
    (Conversion.CState value string ∅ 0)
  = (Conversion.Done sample_adapter, sample_cstate).
Proof. reflexivity. Qed.

Lemma make_adapter_registers_witness :
  exists cls,
    fst (Conversion.make_adapter value string sample_type_str sample_adapter
           (Some "int") (Some "str") None None sample_cstate) = Conversion.Done cls /\
    Conversion.mro value string (Conversion.k_weight value string) cls = Some 1.
Proof.
  destruct (make_adapter_registers sample_type_str sample_adapter (Some "int") (Some "str")
              None None sample_cstate 1%nat ∅ eq_refl eq_refl)
    as (cls & reg' & H & _ & _ & _ & _ & _ & _ & _ & Hw).
  exists cls. split; [now rewrite H | exact Hw].
Defined.

Lemma make_adapter_replaces_witness :
  exists cls2,
    fst (Conversion.make_adapter value string sample_type_str sample_adapter
           (Some "int") (Some "str") None (Some 10)
           (snd (Conversion.make_adapter value string sample_type_str sample_adapter
                   (Some "int") (Some "str") None None sample_cstate)))
    = Conversion.Done cls2 /\
    Conversion.k_id value string cls2 = 3%nat.
Proof.
  destruct (make_adapter_replaces sample_type_str sample_adapter (Some "int") (Some "str")
              None None None (Some 10) sample_cstate 1%nat ∅ eq_refl eq_refl)
    as (cls1 & cls2 & reg1 & reg2 & H1 & H2 & _ & _ & _ & Hid & _).
  exists cls2. split; [exact H2|].
  rewrite Hid. injection H1 as <-. reflexivity.
Defined.

Lemma adapter_call_witness :
  exists cls,
    fst (Conversion.make_adapter value string sample_type_str sample_adapter
           (Some "int") (Some "str") None None sample_cstate) = Conversion.Done cls /\
    Conversion.call value string sample_isinstance sample_construct cls (VInt 12)
    = Conversion.Done (VStr "12") /\
    Conversion.call value string sample_isinstance sample_construct cls (VStr "x")
    = Conversion.Failed Conversion.AssertionError.
Proof.
  destruct (adapter_call sample_type_str sample_isinstance sample_construct sample_adapter
              "int" "str" None sample_cstate 1%nat ∅ eq_refl eq_refl eq_refl)
    as (_ & cls & H & Hc).
  exists cls. split; [exact H|]. split; [exact (Hc (VInt 12)) | exact (Hc (VStr "x"))].
Defined.
